(** * go-msgpack: the net/rpc codecs of rpc.go

    A shallow embedding of [rpc.go]: the stream core shared by both codecs
    ([rpcCodec]), the basic codec ([goRpcCodec]) and the codec of the
    MessagePack-RPC specification ([specRpcCodec]).

    The Encoder, the Decoder and the connection are collaborators of the
    codec: every use of them is an explicit call of a small effect signature
    ([Call]), a codec method is a program over that signature ([Prog]), and a
    program is run against any implementation of the collaborators
    ([Handler]).  Go pointer arguments are passed in and out: a method that
    receives [*T] takes the pointee and returns the pointee it leaves. *)

From Stdlib Require Import ZArith List Ascii String Bool Lia.
Import ListNotations.
Open Scope Z_scope.

Set Implicit Arguments.

(** ** Go data *)

(** Go's conversion [uint32(x)] of an unsigned 64-bit [x]. *)
Definition uint32 (x : Z) : Z := x mod 2 ^ 32.

Definition is_uint64 (x : Z) : Prop := 0 <= x < 2 ^ 64.

(** [rpc.Request] and [rpc.Response] of net/rpc (the private [next] link is
    not part of the data). *)
Record Request : Type := mkRequest {
  req_ServiceMethod : string;
  req_Seq : Z
}.

Record Response : Type := mkResponse {
  resp_ServiceMethod : string;
  resp_Seq : Z;
  resp_Error : string
}.

(** Go [error] values; [option error] is the interface, [None] being nil.
    The three framing errors are the ones [parseCustomHeader] builds with
    [fmt.Errorf]; the others come from the connection and from the
    Encoder/Decoder. *)
Inductive error : Type :=
| ErrNoBytesRead
| ErrArrayDescriptor (expecting received : Z)
| ErrByteDescriptor (expecting received : Z)
| ErrIO (msg : string)
| ErrCodec (msg : string).

(** The dynamic values ([interface{}]) handed to the Encoder. *)
#[warnings="-register-all"] Inductive value : Type :=
| Nil
| Byte (b : Z)
| Uint32 (n : Z)
| Uint64 (n : Z)
| Str (s : string)
| Slice (xs : list value)
| RequestPtr (r : Request)
| ResponsePtr (r : Response).

(** Go's [v != nil] on an interface value. *)
Definition not_nil (v : value) : bool :=
  match v with Nil => false | _ => true end.

(** The pointers handed to the Decoder, by the type of what they point to.
    [PBodyArr] is [&bodyArr] for [bodyArr := []interface{}{body}]: the
    pointee tracked is the one of [body]. *)
Inductive ptr : Type :=
| PByte | PUint64 | PString | PRequest | PResponse | PBody | PBodyArr.

Definition pointee (p : ptr) : Type :=
  match p with
  | PByte => Z
  | PUint64 => Z
  | PString => string
  | PRequest => Request
  | PResponse => Response
  | PBody => value
  | PBodyArr => value
  end.

(** ** Calls to the collaborators, and programs over them *)

Inductive Call : Type -> Type :=
| Encode (obj : value) : Call (option error)
| Decode (p : ptr) (cur : pointee p) : Call (pointee p * option error)
| RwcRead1 : Call (Z * Z * option error)
| RwcClose : Call (option error).

Inductive Prog (A : Type) : Type :=
| Ret (a : A)
| Vis (R : Type) (e : Call R) (k : R -> Prog A).

Arguments Ret {A} a.
Arguments Vis {A R} e k.

Fixpoint bind {A B : Type} (p : Prog A) (f : A -> Prog B) : Prog B :=
  match p with
  | Ret a => f a
  | Vis e k => Vis e (fun r => bind (k r) f)
  end.

Definition call {R : Type} (e : Call R) : Prog R := Vis e (fun r => Ret r).

Notation "x <- p ;; q" := (bind p (fun x => q))
  (at level 61, p at next level, right associativity).
Notation "' pat <- p ;; q" := (bind p (fun x => match x with pat => q end))
  (at level 61, pat pattern, p at next level, right associativity).

(** What a call looks like from outside: the kind of call and, for an
    encode, the value encoded. *)
Inductive callee : Type :=
| CEncode (obj : value)
| CDecode (p : ptr)
| CRead1
| CClose.

Definition callee_of {R : Type} (e : Call R) : callee :=
  match e with
  | Encode obj => CEncode obj
  | Decode p _ => CDecode p
  | RwcRead1 => CRead1
  | RwcClose => CClose
  end.

(** An implementation of the collaborators over a world [W].  [h_read1] is
    [rwc.Read] on a one-byte buffer: it answers the count [n], the content of
    the buffer afterwards and the error. *)
Record Handler (W : Type) : Type := mkHandler {
  h_encode : value -> W -> option error * W;
  h_decode : forall p : ptr, pointee p -> W -> (pointee p * option error) * W;
  h_read1 : W -> (Z * Z * option error) * W;
  h_close : W -> option error * W
}.

Definition handle {W : Type} (h : Handler W) {R : Type} (e : Call R) : W -> R * W :=
  match e in Call R0 return W -> R0 * W with
  | Encode obj => h_encode h obj
  | Decode p cur => h_decode h p cur
  | RwcRead1 => h_read1 h
  | RwcClose => h_close h
  end.

Fixpoint run {W A : Type} (h : Handler W) (p : Prog A) (w : W) : A * W :=
  match p with
  | Ret a => (a, w)
  | Vis e k => let (r, w') := handle h e w in run h (k r) w'
  end.

(** The calls a program makes, in order, when run from [w]. *)
Fixpoint calls {W A : Type} (h : Handler W) (p : Prog A) (w : W) : list callee :=
  match p with
  | Ret _ => []
  | Vis e k => let (r, w') := handle h e w in callee_of e :: calls h (k r) w'
  end.

(** ** The stream core: [rpcCodec] *)

Module rpcCodec.

(** [func (c *rpcCodec) write(objs ...interface{}) (err error)] *)
Fixpoint write (objs : list value) : Prog (option error) :=
  match objs with
  | [] => Ret None
  | obj :: objs' =>
      err <- call (Encode obj) ;;
      match err with
      | Some _ => Ret err
      | None => write objs'
      end
  end.

(** The targets of [read]: one pointee per pointer. *)
Fixpoint pointees (ps : list ptr) : Type :=
  match ps with
  | [] => unit
  | p :: ps' => (pointee p * pointees ps')%type
  end.

(** [func (c *rpcCodec) read(objs ...interface{}) (err error)] *)
Fixpoint read (ps : list ptr) : pointees ps -> Prog (pointees ps * option error) :=
  match ps return pointees ps -> Prog (pointees ps * option error) with
  | [] => fun objs => Ret (objs, None)
  | p :: ps' => fun objs =>
      '(obj, err) <- call (Decode p (fst objs)) ;;
      match err with
      | Some _ => Ret ((obj, snd objs), err)
      | None =>
          '(objs', err') <- read ps' (snd objs) ;;
          Ret ((obj, objs'), err')
      end
  end.

(** [func (c *rpcCodec) Close() error] *)
Definition Close : Prog (option error) := call RwcClose.

(** [func (c *rpcCodec) ReadResponseBody(body interface{}) error] *)
Definition ReadResponseBody (body : value) : Prog (value * option error) :=
  call (Decode PBody body).

End rpcCodec.

(** ** The basic codec: [goRpcCodec] *)

Module goRpcCodec.

Definition WriteRequest (r : Request) (body : value) : Prog (option error) :=
  rpcCodec.write [RequestPtr r; body].

Definition WriteResponse (r : Response) (body : value) : Prog (option error) :=
  rpcCodec.write [ResponsePtr r; body].

Definition ReadRequestBody (body : value) : Prog (value * option error) :=
  call (Decode PBody body).

Definition ReadResponseHeader (r : Response) : Prog (Response * option error) :=
  call (Decode PResponse r).

Definition ReadRequestHeader (r : Request) : Prog (Request * option error) :=
  call (Decode PRequest r).

(** Promoted from the embedded [rpcCodec]. *)
Definition ReadResponseBody := rpcCodec.ReadResponseBody.
Definition Close := rpcCodec.Close.

End goRpcCodec.

(** ** The codec of the MessagePack-RPC specification: [specRpcCodec] *)

Module specRpcCodec.

(** [const fia byte = 0x94], the four item array descriptor. *)
Definition fia : Z := 0x94.

(** [parseCustomHeader(expectTypeByte byte, msgid *uint64, methodOrError *string)]:
    the result carries the pointees of [msgid] and [methodOrError] at return. *)
Definition parseCustomHeader (expectTypeByte : Z) (msgid : Z) (methodOrError : string)
  : Prog (Z * string * option error) :=
  '(n, bs0, err) <- call RwcRead1 ;;
  match err with
  | Some _ => Ret (msgid, methodOrError, err)
  | None =>
      if negb (n =? 1) then Ret (msgid, methodOrError, Some ErrNoBytesRead)
      else if negb (bs0 =? fia) then
        Ret (msgid, methodOrError, Some (ErrArrayDescriptor fia bs0))
      else
        '(objs, err) <- rpcCodec.read [PByte; PUint64; PString]
                          (0, (msgid, (methodOrError, tt))) ;;
        let '(b, (msgid, (methodOrError, _))) := objs in
        match err with
        | Some _ => Ret (msgid, methodOrError, err)
        | None =>
            if negb (b =? expectTypeByte) then
              Ret (msgid, methodOrError, Some (ErrByteDescriptor expectTypeByte b))
            else Ret (msgid, methodOrError, None)
        end
  end.

(** The slice [r2] that [writeCustomBody] builds and hands to the Encoder. *)
Definition r2 (typeByte : Z) (msgid : Z) (methodOrError : string) (body : value)
  : value :=
  let moe := Str methodOrError in
  let '(moe, body) :=
    if typeByte =? 1 then
      let moe := if String.eqb methodOrError EmptyString then Nil else moe in
      let body := if not_nil moe && not_nil body then Nil else body in
      (moe, body)
    else (moe, body) in
  Slice [Byte typeByte; Uint32 (uint32 msgid); moe; body].

(** [writeCustomBody(typeByte byte, msgid uint64, methodOrError string, body interface{})] *)
Definition writeCustomBody (typeByte : Z) (msgid : Z) (methodOrError : string) (body : value)
  : Prog (option error) :=
  call (Encode (r2 typeByte msgid methodOrError body)).

Definition WriteRequest (r : Request) (body : value) : Prog (option error) :=
  writeCustomBody 0 (req_Seq r) (req_ServiceMethod r) (Slice [body]).

Definition WriteResponse (r : Response) (body : value) : Prog (option error) :=
  writeCustomBody 1 (resp_Seq r) (resp_Error r) body.

Definition ReadRequestBody (body : value) : Prog (value * option error) :=
  call (Decode PBodyArr body).

Definition ReadResponseHeader (r : Response) : Prog (Response * option error) :=
  '(seq, e, err) <- parseCustomHeader 1 (resp_Seq r) (resp_Error r) ;;
  Ret (mkResponse (resp_ServiceMethod r) seq e, err).

Definition ReadRequestHeader (r : Request) : Prog (Request * option error) :=
  '(seq, m, err) <- parseCustomHeader 0 (req_Seq r) (req_ServiceMethod r) ;;
  Ret (mkRequest m seq, err).

(** Promoted from the embedded [rpcCodec]. *)
Definition ReadResponseBody := rpcCodec.ReadResponseBody.
Definition Close := rpcCodec.Close.

End specRpcCodec.

(** ** Observations on a run *)

Section Observations.

Variable W : Type.
Variable h : Handler W.

(** Every value of [objs] is encoded without failure, one after the other
    from [w]. *)
Fixpoint all_encoded (objs : list value) (w : W) : Prop :=
  match objs with
  | [] => True
  | obj :: objs' =>
      fst (h_encode h obj w) = None /\ all_encoded objs' (snd (h_encode h obj w))
  end.

(** The world once the Encoder has been handed each value of [objs]. *)
Fixpoint after_encodes (objs : list value) (w : W) : W :=
  match objs with
  | [] => w
  | obj :: objs' => after_encodes objs' (snd (h_encode h obj w))
  end.

(** Every pointer of [ps] is decoded into without failure. *)
Fixpoint all_decoded (ps : list ptr) : rpcCodec.pointees ps -> W -> Prop :=
  match ps return rpcCodec.pointees ps -> W -> Prop with
  | [] => fun _ _ => True
  | p :: ps' => fun objs w =>
      snd (fst (h_decode h p (fst objs) w)) = None /\
      all_decoded ps' (snd objs) (snd (h_decode h p (fst objs) w))
  end.

(** The pointees and the world once the Decoder has decoded into each
    pointer of [ps]. *)
Fixpoint after_decodes (ps : list ptr) : rpcCodec.pointees ps -> W -> rpcCodec.pointees ps * W :=
  match ps return rpcCodec.pointees ps -> W -> rpcCodec.pointees ps * W with
  | [] => fun objs w => (objs, w)
  | p :: ps' => fun objs w =>
      let r := h_decode h p (fst objs) w in
      let (objs', w') := after_decodes ps' (snd objs) (snd r) in
      ((fst (fst r), objs'), w')
  end.

End Observations.

(** Targets side by side: the pointees of [ps1 ++ ps2]. *)
Fixpoint papp (ps1 ps2 : list ptr)
  : rpcCodec.pointees ps1 -> rpcCodec.pointees ps2 -> rpcCodec.pointees (ps1 ++ ps2) :=
  match ps1 return rpcCodec.pointees ps1 -> rpcCodec.pointees ps2
                   -> rpcCodec.pointees (ps1 ++ ps2) with
  | [] => fun _ ys => ys
  | p :: ps1' => fun xs ys => (fst xs, papp ps1' ps2 (snd xs) ys)
  end.

(** Nesting depth of a value. *)
Fixpoint depth (v : value) : nat :=
  match v with
  | Slice xs =>
      S ((fix deepest (l : list value) : nat :=
            match l with
            | [] => O
            | x :: l' => Nat.max (depth x) (deepest l')
            end) xs)
  | _ => O
  end.

(** ** The envelopes as the specification words them *)

(** The error slot: the "no value" marker when the message is empty. *)
Definition spec_moe (r : Response) : value :=
  match resp_Error r with
  | EmptyString => Nil
  | e => Str e
  end.

(** The body slot: forced to "no value" when the error is present and the
    body is non-null. *)
Definition spec_body (r : Response) (body : value) : value :=
  match spec_moe r, body with
  | Nil, _ => body
  | _, Nil => body
  | _, _ => Nil
  end.

(** [[1, uint32(r.SequenceID), moe, body]] *)
Definition spec_response (r : Response) (body : value) : value :=
  Slice [Byte 1; Uint32 (resp_Seq r mod 2 ^ 32); spec_moe r; spec_body r body].

(** [[0, uint32(r.SequenceID), r.MethodName, [body]]] *)
Definition spec_request (r : Request) (body : value) : value :=
  Slice [Byte 0; Uint32 (req_Seq r mod 2 ^ 32); Str (req_ServiceMethod r); Slice [body]].

(** The error slot and the body slot of a four-slot envelope. *)
Definition error_slot (env : value) : option value :=
  match env with
  | Slice [_; _; moe; _] => Some moe
  | _ => None
  end.

Definition body_slot (env : value) : option value :=
  match env with
  | Slice [_; _; _; body] => Some body
  | _ => None
  end.

(** An envelope carries either an error or a body: exactly one of the two
    slots is not the "no value" marker. *)
Definition error_xor_body (env : value) : Prop :=
  match error_slot env, body_slot env with
  | Some moe, Some body => xorb (not_nil moe) (not_nil body) = true
  | _, _ => False
  end.

(** ** A byte pipe as the connection

    The connection is a queue of bytes: the Encoder appends what [marshal]
    produces, [rwc.Read] and the Decoder take from the front.  The
    serialization engine itself ([marshal], [unmarshal]) stays a parameter. *)

Section Pipe.

Variable marshal : value -> list Z * option error.
Variable unmarshal : forall p : ptr, pointee p -> list Z -> pointee p * list Z * option error.

Definition pipe_read1 (w : list Z) : (Z * Z * option error) * list Z :=
  match w with
  | [] => ((0, 0, Some (ErrIO "EOF")), [])
  | b :: w' => ((1, b, None), w')
  end.

Definition pipe : Handler (list Z) :=
  {| h_encode := fun obj w => let (bs, err) := marshal obj in (err, w ++ bs);
     h_decode := fun p cur w =>
       let '(x, w', err) := unmarshal p cur w in ((x, err), w');
     h_read1 := pipe_read1;
     h_close := fun w => (None, w) |}.

(** The bytes of [v] on the wire. *)
Definition wire (v : value) : list Z := fst (marshal v).

(** The Decoder inverts the Encoder at [v] for a target of kind [p]: decoding
    the bytes of [v] stores [x] and consumes exactly those bytes. *)
Definition inverts (p : ptr) (v : value) (x : pointee p) : Prop :=
  snd (marshal v) = None /\
  forall (cur : pointee p) (rest : list Z),
    unmarshal p cur (wire v ++ rest) = (x, rest, None).

(** The engine writes a slice of four values as the descriptor [0x94]
    followed by the four values. *)
Definition fixarray4 (a b c d : value) : Prop :=
  marshal (Slice [a; b; c; d]) =
  (specRpcCodec.fia :: wire a ++ wire b ++ wire c ++ wire d, None).

End Pipe.

(** ** A reference engine

    [rpc.go] only calls the Encoder and the Decoder, and the statements below
    hold for any of them.  This small MessagePack engine (nil, unsigned
    integers, raw strings, arrays, and the two net/rpc envelopes as
    field-name maps) is the one they are exercised on. *)

Module MiniMsgpack.

(** [n] bytes of [x], most significant first. *)
Fixpoint be (n : nat) (x : Z) : list Z :=
  match n with
  | O => []
  | S n' => (x / 256 ^ Z.of_nat n') mod 256 :: be n' x
  end.

Definition from_be (bs : list Z) : Z :=
  fold_left (fun acc b => acc * 256 + b) bs 0.

Fixpoint take (n : nat) (bs : list Z) : option (list Z * list Z) :=
  match n, bs with
  | O, _ => Some ([], bs)
  | S _, [] => None
  | S n', b :: bs' =>
      match take n' bs' with
      | Some (xs, rest) => Some (b :: xs, rest)
      | None => None
      end
  end.

Definition bytes_of_string (s : string) : list Z :=
  map (fun a => Z.of_N (Ascii.N_of_ascii a)) (list_ascii_of_string s).

Definition string_of_bytes (bs : list Z) : string :=
  string_of_list_ascii (map (fun b => Ascii.ascii_of_N (Z.to_N b)) bs).

Definition enc_uint (n : Z) : list Z :=
  if n <? 128 then [n]
  else if n <? 2 ^ 8 then 0xcc :: be 1 n
  else if n <? 2 ^ 16 then 0xcd :: be 2 n
  else if n <? 2 ^ 32 then 0xce :: be 4 n
  else 0xcf :: be 8 n.

Definition enc_str (s : string) : list Z :=
  let bs := bytes_of_string s in
  let n := Z.of_nat (List.length bs) in
  (if n <? 32 then [0xa0 + n]
   else if n <? 2 ^ 16 then 0xda :: be 2 n
   else 0xdb :: be 4 n) ++ bs.

Definition enc_array_header (n : Z) : list Z :=
  if n <? 16 then [0x90 + n]
  else if n <? 2 ^ 16 then 0xdc :: be 2 n
  else 0xdd :: be 4 n.

Definition in_range (n bound : Z) : bool := (0 <=? n) && (n <? bound).

Definition overflow : option error := Some (ErrCodec "integer out of range").

(** The bytes written for a value and the error of the encode, if any:
    the bytes of a slice stop with the element that fails. *)
Fixpoint marshal (v : value) : list Z * option error :=
  match v with
  | Nil => ([0xc0], None)
  | Byte b => if in_range b (2 ^ 8) then (enc_uint b, None) else ([], overflow)
  | Uint32 n => if in_range n (2 ^ 32) then (enc_uint n, None) else ([], overflow)
  | Uint64 n => if in_range n (2 ^ 64) then (enc_uint n, None) else ([], overflow)
  | Str s => (enc_str s, None)
  | Slice xs =>
      let fix elems (l : list value) : list Z * option error :=
        match l with
        | [] => ([], None)
        | x :: l' =>
            match marshal x with
            | (bs, Some e) => (bs, Some e)
            | (bs, None) => let (bs', err) := elems l' in (bs ++ bs', err)
            end
        end in
      let (bs, err) := elems xs in
      (enc_array_header (Z.of_nat (List.length xs)) ++ bs, err)
  | RequestPtr r =>
      if in_range (req_Seq r) (2 ^ 64) then
        (0x82 :: enc_str "ServiceMethod" ++ enc_str (req_ServiceMethod r)
              ++ enc_str "Seq" ++ enc_uint (req_Seq r), None)
      else ([0x82], overflow)
  | ResponsePtr r =>
      if in_range (resp_Seq r) (2 ^ 64) then
        (0x83 :: enc_str "ServiceMethod" ++ enc_str (resp_ServiceMethod r)
              ++ enc_str "Seq" ++ enc_uint (resp_Seq r)
              ++ enc_str "Error" ++ enc_str (resp_Error r), None)
      else ([0x83], overflow)
  end.

Definition dec_fixed (n : nat) (bs : list Z) : option (Z * list Z) :=
  match take n bs with
  | Some (xs, rest) => Some (from_be xs, rest)
  | None => None
  end.

Definition dec_uint (bs : list Z) : option (Z * list Z) :=
  match bs with
  | [] => None
  | b :: rest =>
      if in_range b 128 then Some (b, rest)
      else if b =? 0xcc then dec_fixed 1 rest
      else if b =? 0xcd then dec_fixed 2 rest
      else if b =? 0xce then dec_fixed 4 rest
      else if b =? 0xcf then dec_fixed 8 rest
      else None
  end.

Definition dec_raw (n : Z) (bs : list Z) : option (string * list Z) :=
  match take (Z.to_nat n) bs with
  | Some (xs, rest) => Some (string_of_bytes xs, rest)
  | None => None
  end.

(** A raw string; nil on the wire is the zero value, the empty string. *)
Definition dec_str (bs : list Z) : option (string * list Z) :=
  match bs with
  | [] => None
  | b :: rest =>
      if b =? 0xc0 then Some (EmptyString, rest)
      else if in_range (b - 0xa0) 32 then dec_raw (b - 0xa0) rest
      else if b =? 0xda then
        match dec_fixed 2 rest with Some (n, r) => dec_raw n r | None => None end
      else if b =? 0xdb then
        match dec_fixed 4 rest with Some (n, r) => dec_raw n r | None => None end
      else None
  end.

Definition dec_array_header (bs : list Z) : option (Z * list Z) :=
  match bs with
  | [] => None
  | b :: rest =>
      if in_range (b - 0x90) 16 then Some (b - 0x90, rest)
      else if b =? 0xdc then dec_fixed 2 rest
      else if b =? 0xdd then dec_fixed 4 rest
      else None
  end.

(** A value of any shape, for an [interface{}] target. *)
Fixpoint dec_value (fuel : nat) (bs : list Z) : option (value * list Z) :=
  match fuel, bs with
  | O, _ => None
  | _, [] => None
  | S fuel', b :: rest =>
      if b =? 0xc0 then Some (Nil, rest)
      else if in_range (b - 0x90) 16 || (b =? 0xdc) || (b =? 0xdd) then
        match dec_array_header bs with
        | Some (n, r) =>
            let fix elems (k : nat) (bs : list Z) : option (list value * list Z) :=
              match k with
              | O => Some ([], bs)
              | S k' =>
                  match dec_value fuel' bs with
                  | Some (v, r1) =>
                      match elems k' r1 with
                      | Some (vs, r2) => Some (v :: vs, r2)
                      | None => None
                      end
                  | None => None
                  end
              end in
            match elems (Z.to_nat n) r with
            | Some (vs, r') => Some (Slice vs, r')
            | None => None
            end
        | None => None
        end
      else if in_range (b - 0xa0) 32 || (b =? 0xda) || (b =? 0xdb) then
        match dec_str bs with
        | Some (s, r) => Some (Str s, r)
        | None => None
        end
      else
        match dec_uint bs with
        | Some (n, r) => Some (Uint64 n, r)
        | None => None
        end
  end.

Definition dec_any (bs : list Z) : option (value * list Z) :=
  dec_value (S (List.length bs)) bs.

Definition malformed : option error := Some (ErrCodec "malformed input").

(** A map of [n] string-keyed fields, given their names in order. *)
Definition dec_key (name : string) (bs : list Z) : option (list Z) :=
  match dec_str bs with
  | Some (k, r) => if String.eqb k name then Some r else None
  | None => None
  end.

Definition dec_request (bs : list Z) : option (Request * list Z) :=
  match bs with
  | 0x82 :: r0 =>
      match dec_key "ServiceMethod" r0 with
      | Some r1 =>
          match dec_str r1 with
          | Some (m, r2) =>
              match dec_key "Seq" r2 with
              | Some r3 =>
                  match dec_uint r3 with
                  | Some (n, r4) => Some (mkRequest m n, r4)
                  | None => None
                  end
              | None => None
              end
          | None => None
          end
      | None => None
      end
  | _ => None
  end.

Definition dec_response (bs : list Z) : option (Response * list Z) :=
  match bs with
  | 0x83 :: r0 =>
      match dec_key "ServiceMethod" r0 with
      | Some r1 =>
          match dec_str r1 with
          | Some (m, r2) =>
              match dec_key "Seq" r2 with
              | Some r3 =>
                  match dec_uint r3 with
                  | Some (n, r4) =>
                      match dec_key "Error" r4 with
                      | Some r5 =>
                          match dec_str r5 with
                          | Some (e, r6) => Some (mkResponse m n e, r6)
                          | None => None
                          end
                      | None => None
                      end
                  | None => None
                  end
              | None => None
              end
          | None => None
          end
      | None => None
      end
  | _ => None
  end.

Definition store {A : Type} (cur : A) (bs : list Z) (res : option (A * list Z))
  : A * list Z * option error :=
  match res with
  | Some (x, rest) => (x, rest, None)
  | None => (cur, bs, malformed)
  end.

(** Decoding into a target: on failure the target and the stream are left
    as they were. *)
Definition unmarshal (p : ptr) : pointee p -> list Z -> pointee p * list Z * option error :=
  match p return pointee p -> list Z -> pointee p * list Z * option error with
  | PByte => fun cur bs =>
      match dec_uint bs with
      | Some (n, rest) => if n <? 2 ^ 8 then (n, rest, None) else (cur, bs, overflow)
      | None => (cur, bs, malformed)
      end
  | PUint64 => fun cur bs => store cur bs (dec_uint bs)
  | PString => fun cur bs => store cur bs (dec_str bs)
  | PRequest => fun cur bs => store cur bs (dec_request bs)
  | PResponse => fun cur bs => store cur bs (dec_response bs)
  | PBody => fun cur bs => store cur bs (dec_any bs)
  | PBodyArr => fun cur bs =>
      match dec_array_header bs with
      | Some (1, rest) => store cur bs (dec_any rest)
      | _ => (cur, bs, malformed)
      end
  end.

(** The byte pipe driven by this engine. *)
Definition conn : Handler (list Z) := pipe marshal unmarshal.

(** The stream left by [WriteResponse] for a failed call. *)
Definition failed_call : list Z :=
  snd (run conn (specRpcCodec.WriteResponse (mkResponse "" 9 "division by zero") (Uint64 0))
           []).

End MiniMsgpack.

(** ** What an engine has to do for one message

    The conditions under which the byte pipe carries a message of the Spec
    protocol: the envelope is written as [0x94] followed by its four slots,
    and the Decoder inverts the Encoder on each slot for the target the
    reader uses. *)

Definition carries_request
    (marshal : value -> list Z * option error)
    (unmarshal : forall p : ptr, pointee p -> list Z -> pointee p * list Z * option error)
    (r : Request) (body : value) : Prop :=
  fixarray4 marshal (Byte 0) (Uint32 (uint32 (req_Seq r)))
            (Str (req_ServiceMethod r)) (Slice [body]) /\
  inverts marshal unmarshal PByte (Byte 0) 0 /\
  inverts marshal unmarshal PUint64 (Uint32 (uint32 (req_Seq r))) (uint32 (req_Seq r)) /\
  inverts marshal unmarshal PString (Str (req_ServiceMethod r)) (req_ServiceMethod r) /\
  inverts marshal unmarshal PBodyArr (Slice [body]) body.

(** For a response the error slot is the string or nil, read back into a
    string, and the body slot is read back into the body target. *)
Definition carries_response
    (marshal : value -> list Z * option error)
    (unmarshal : forall p : ptr, pointee p -> list Z -> pointee p * list Z * option error)
    (r : Response) (body : value) : Prop :=
  fixarray4 marshal (Byte 1) (Uint32 (uint32 (resp_Seq r))) (spec_moe r) (spec_body r body) /\
  inverts marshal unmarshal PByte (Byte 1) 1 /\
  inverts marshal unmarshal PUint64 (Uint32 (uint32 (resp_Seq r))) (uint32 (resp_Seq r)) /\
  inverts marshal unmarshal PString (spec_moe r) (resp_Error r) /\
  inverts marshal unmarshal PBody (spec_body r body) (spec_body r body).

(** ** The logging helper *)

Module helper.

(** The byte ['\n']. *)
Definition newline : Ascii.ascii := "010"%char.

(** [len(format) == 0 || format[len(format)-1] != '\n']: the index is in
    range whenever the first test fails. *)
Definition lacks_newline (format : string) : bool :=
  (String.length format =? 0)%nat ||
  match String.get (String.length format - 1) format with
  | Some c => negb (Ascii.eqb c newline)
  | None => true
  end.

(** [func log(format string, args ...interface{})] under the package
    variables [showLog] and [debugging]: the call of [fmt.Printf] it makes,
    if it makes one. *)
Definition log (showLog debugging : bool) (format : string) (args : list value)
  : option (string * list value) :=
  if showLog || debugging then
    let format :=
      if lacks_newline format then (format ++ String newline EmptyString)%string
      else format in
    Some (format, args)
  else None.

End helper.

(** ** Proof automation *)

(** Split a conjunction into its parts, without touching the parts. *)
Ltac conjuncts := repeat match goal with |- _ /\ _ => split end.

(** Settle, by evaluation, that a given engine carries a given message. *)
Ltac carried :=
  unfold carries_request, carries_response, inverts, fixarray4;
  conjuncts; first [reflexivity | intros ? ?; reflexivity].

(** * Properties *)

(** ** Running programs *)

Section RunFacts.

Context {W : Type} (h : Handler W).

Lemma run_bind {A B : Type} (p : Prog A) (f : A -> Prog B) (w : W) :
  run h (bind p f) w = run h (f (fst (run h p w))) (snd (run h p w)).
Proof.
  revert w. induction p as [a | R e k IH]; intros w; simpl.
  - reflexivity.
  - destruct (handle h e w) as [r w']. apply IH.
Qed.

Lemma calls_bind {A B : Type} (p : Prog A) (f : A -> Prog B) (w : W) :
  calls h (bind p f) w =
  calls h p w ++ calls h (f (fst (run h p w))) (snd (run h p w)).
Proof.
  revert w. induction p as [a | R e k IH]; intros w; simpl.
  - reflexivity.
  - destruct (handle h e w) as [r w']. simpl. f_equal. apply IH.
Qed.

Lemma run_call {R : Type} (e : Call R) (w : W) : run h (call e) w = handle h e w.
Proof. unfold call. simpl. destruct (handle h e w). reflexivity. Qed.

Lemma calls_call {R : Type} (e : Call R) (w : W) : calls h (call e) w = [callee_of e].
Proof. unfold call. simpl. destruct (handle h e w). reflexivity. Qed.

(** *** [write] *)

Lemma write_cons (obj : value) (objs : list value) (w : W) :
  run h (rpcCodec.write (obj :: objs)) w =
  match fst (h_encode h obj w) with
  | Some e => (Some e, snd (h_encode h obj w))
  | None => run h (rpcCodec.write objs) (snd (h_encode h obj w))
  end.
Proof.
  simpl. destruct (h_encode h obj w) as [[e |] w']; reflexivity.
Qed.

Lemma write_cons_calls (obj : value) (objs : list value) (w : W) :
  calls h (rpcCodec.write (obj :: objs)) w =
  CEncode obj ::
  match fst (h_encode h obj w) with
  | Some _ => []
  | None => calls h (rpcCodec.write objs) (snd (h_encode h obj w))
  end.
Proof.
  simpl. destruct (h_encode h obj w) as [[e |] w']; reflexivity.
Qed.

Lemma write_all (objs : list value) (w : W) :
  all_encoded h objs w ->
  run h (rpcCodec.write objs) w = (None, after_encodes h objs w) /\
  calls h (rpcCodec.write objs) w = map CEncode objs.
Proof.
  revert w. induction objs as [| obj objs IH]; intros w Hall.
  - split; reflexivity.
  - destruct Hall as [Hobj Hall].
    rewrite write_cons, write_cons_calls, Hobj.
    destruct (IH _ Hall) as [Hrun Hcalls].
    split; [exact Hrun | simpl; f_equal; exact Hcalls].
Qed.

Lemma write_first_failure (pre : list value) (x : value) (post : list value)
      (w w2 : W) (e : error) :
  all_encoded h pre w ->
  h_encode h x (after_encodes h pre w) = (Some e, w2) ->
  run h (rpcCodec.write (pre ++ x :: post)) w = (Some e, w2) /\
  calls h (rpcCodec.write (pre ++ x :: post)) w = map CEncode (pre ++ [x]).
Proof.
  revert w. induction pre as [| obj pre IH]; intros w Hall Hx.
  - simpl app. rewrite write_cons, write_cons_calls.
    simpl in Hx. rewrite Hx. split; reflexivity.
  - destruct Hall as [Hobj Hall]. simpl app.
    rewrite write_cons, write_cons_calls, Hobj.
    destruct (IH _ Hall Hx) as [Hrun Hcalls].
    split; [exact Hrun | simpl; f_equal; exact Hcalls].
Qed.

Lemma write_cases (objs : list value) (w : W) :
  all_encoded h objs w \/
  exists pre x post e w2,
    objs = pre ++ x :: post /\ all_encoded h pre w /\
    h_encode h x (after_encodes h pre w) = (Some e, w2).
Proof.
  revert w. induction objs as [| obj objs IH]; intros w.
  - left. exact I.
  - destruct (h_encode h obj w) as [[e |] w'] eqn:Hobj.
    + right. exists [], obj, objs, e, w'. repeat split. exact Hobj.
    + destruct (IH w') as [Hall | (pre & x & post & e & w2 & -> & Hall & Hx)].
      * left. simpl. rewrite Hobj. split; [reflexivity | exact Hall].
      * right. exists (obj :: pre), x, post, e, w2. simpl. rewrite Hobj.
        repeat split; assumption.
Qed.

(** *** [read] *)

Lemma read_cons (p : ptr) (ps : list ptr) (objs : rpcCodec.pointees (p :: ps)) (w : W) :
  run h (rpcCodec.read (p :: ps) objs) w =
  let r := h_decode h p (fst objs) w in
  match snd (fst r) with
  | Some e => ((fst (fst r), snd objs, Some e), snd r)
  | None =>
      let r' := run h (rpcCodec.read ps (snd objs)) (snd r) in
      ((fst (fst r), fst (fst r'), snd (fst r')), snd r')
  end.
Proof.
  simpl. destruct (h_decode h p (fst objs) w) as [[obj [e |]] w']; simpl.
  - reflexivity.
  - rewrite run_bind.
    destruct (run h (rpcCodec.read ps (snd objs)) w') as [[objs' err'] w'']. reflexivity.
Qed.

Lemma read_cons_calls (p : ptr) (ps : list ptr) (objs : rpcCodec.pointees (p :: ps)) (w : W) :
  calls h (rpcCodec.read (p :: ps) objs) w =
  CDecode p ::
  match snd (fst (h_decode h p (fst objs) w)) with
  | Some _ => []
  | None => calls h (rpcCodec.read ps (snd objs)) (snd (h_decode h p (fst objs) w))
  end.
Proof.
  simpl. destruct (h_decode h p (fst objs) w) as [[obj [e |]] w']; simpl.
  - reflexivity.
  - rewrite calls_bind.
    destruct (run h (rpcCodec.read ps (snd objs)) w') as [[objs' err'] w''].
    simpl. rewrite app_nil_r. reflexivity.
Qed.

Lemma read_all (ps : list ptr) (objs : rpcCodec.pointees ps) (w : W) :
  all_decoded h ps objs w ->
  run h (rpcCodec.read ps objs) w =
    ((fst (after_decodes h ps objs w), None), snd (after_decodes h ps objs w)) /\
  calls h (rpcCodec.read ps objs) w = map CDecode ps.
Proof.
  revert objs w. induction ps as [| p ps IH]; intros objs w Hall.
  - split; reflexivity.
  - destruct Hall as [Hobj Hall].
    rewrite read_cons, read_cons_calls. cbv zeta. rewrite Hobj.
    destruct (IH _ _ Hall) as [Hrun Hcalls]. rewrite Hrun, Hcalls.
    simpl. destruct (after_decodes h ps (snd objs) _) as [objs' w'].
    split; reflexivity.
Qed.

Lemma read_first_failure (ps1 : list ptr) (p : ptr) (ps2 : list ptr)
      (objs1 : rpcCodec.pointees ps1) (x x' : pointee p) (objs2 : rpcCodec.pointees ps2)
      (w w2 : W) (e : error) :
  all_decoded h ps1 objs1 w ->
  h_decode h p x (snd (after_decodes h ps1 objs1 w)) = ((x', Some e), w2) ->
  run h (rpcCodec.read (ps1 ++ p :: ps2) (papp ps1 (p :: ps2) objs1 (x, objs2))) w =
    ((papp ps1 (p :: ps2) (fst (after_decodes h ps1 objs1 w)) (x', objs2), Some e), w2) /\
  calls h (rpcCodec.read (ps1 ++ p :: ps2) (papp ps1 (p :: ps2) objs1 (x, objs2))) w =
    map CDecode (ps1 ++ [p]).
Proof.
  revert objs1 w. induction ps1 as [| q ps1 IH]; intros objs1 w Hall Hx.
  - simpl app. simpl papp. rewrite read_cons, read_cons_calls. cbv zeta.
    simpl in Hx. simpl fst. rewrite Hx. split; reflexivity.
  - destruct Hall as [Hobj Hall]. simpl app. simpl papp.
    rewrite read_cons, read_cons_calls. cbv zeta. simpl fst. simpl snd.
    rewrite Hobj.
    simpl in Hx.
    destruct (after_decodes h ps1 (snd objs1) (snd (h_decode h q (fst objs1) w)))
      as [objs' w'] eqn:Hafter.
    assert (Hx' : h_decode h p x
                  (snd (after_decodes h ps1 (snd objs1) (snd (h_decode h q (fst objs1) w))))
                  = ((x', Some e), w2)) by (rewrite Hafter; exact Hx).
    destruct (IH _ _ Hall Hx') as [Hrun Hcalls]. rewrite Hrun, Hcalls.
    rewrite Hafter. simpl. split; reflexivity.
Qed.

End RunFacts.

Section StreamCore.

Context {W : Type} (h : Handler W).

Lemma read_cases (ps : list ptr) (objs : rpcCodec.pointees ps) (w : W) :
  all_decoded h ps objs w \/
  exists ps1 p ps2 objs1 x objs2 x' e w2,
    existT rpcCodec.pointees ps objs =
      existT rpcCodec.pointees (ps1 ++ p :: ps2) (papp ps1 (p :: ps2) objs1 (x, objs2)) /\
    all_decoded h ps1 objs1 w /\
    h_decode h p x (snd (after_decodes h ps1 objs1 w)) = ((x', Some e), w2).
Proof.
  revert objs w. induction ps as [| q ps IH]; intros objs w.
  - left. exact I.
  - destruct objs as [o objs].
    destruct (h_decode h q o w) as [[o' [e |]] w'] eqn:Ho.
    + right. exists [], q, ps, tt, o, objs, o', e, w'. repeat split. exact Ho.
    + destruct (IH objs w')
        as [Hall | (ps1 & p & ps2 & objs1 & x & objs2 & x' & e & w2 & Heq & Hall & Hx)].
      * left. simpl. rewrite Ho. split; [reflexivity | exact Hall].
      * right. exists (q :: ps1), p, ps2, (o, objs1), x, objs2, x', e, w2.
        split; [| split].
        -- apply (f_equal (fun s : sigT rpcCodec.pointees =>
                   existT rpcCodec.pointees (q :: projT1 s) (o, projT2 s))) in Heq.
           exact Heq.
        -- simpl. rewrite Ho. split; [reflexivity | exact Hall].
        -- simpl. rewrite Ho. simpl.
           destruct (after_decodes h ps1 objs1 w') as [objs1' w1']. exact Hx.
Qed.

(** C7. The stream core hands the values of [write] to the Encoder one by
    one, in order: when none fails the result is success and every value has
    been encoded once; at the first failure it returns that error, the values
    after it are never handed over, and nothing is tried again.  One of the
    two always applies.  [read] behaves the same way with the Decoder and its
    targets, and leaves the targets after the failing one as they were. *)
Theorem C7_write_read_stop_at_first_failure :
  (forall objs w,
      all_encoded h objs w ->
      run h (rpcCodec.write objs) w = (None, after_encodes h objs w) /\
      calls h (rpcCodec.write objs) w = map CEncode objs) /\
  (forall pre x post w w2 e,
      all_encoded h pre w ->
      h_encode h x (after_encodes h pre w) = (Some e, w2) ->
      run h (rpcCodec.write (pre ++ x :: post)) w = (Some e, w2) /\
      calls h (rpcCodec.write (pre ++ x :: post)) w = map CEncode (pre ++ [x])) /\
  (forall objs w,
      all_encoded h objs w \/
      exists pre x post e w2,
        objs = pre ++ x :: post /\ all_encoded h pre w /\
        h_encode h x (after_encodes h pre w) = (Some e, w2)) /\
  (forall ps objs w,
      all_decoded h ps objs w ->
      run h (rpcCodec.read ps objs) w =
        ((fst (after_decodes h ps objs w), None), snd (after_decodes h ps objs w)) /\
      calls h (rpcCodec.read ps objs) w = map CDecode ps) /\
  (forall ps1 p ps2 objs1 x x' objs2 w w2 e,
      all_decoded h ps1 objs1 w ->
      h_decode h p x (snd (after_decodes h ps1 objs1 w)) = ((x', Some e), w2) ->
      run h (rpcCodec.read (ps1 ++ p :: ps2) (papp ps1 (p :: ps2) objs1 (x, objs2))) w =
        ((papp ps1 (p :: ps2) (fst (after_decodes h ps1 objs1 w)) (x', objs2), Some e), w2) /\
      calls h (rpcCodec.read (ps1 ++ p :: ps2) (papp ps1 (p :: ps2) objs1 (x, objs2))) w =
        map CDecode (ps1 ++ [p])) /\
  (forall ps objs w,
      all_decoded h ps objs w \/
      exists ps1 p ps2 objs1 x objs2 x' e w2,
        existT rpcCodec.pointees ps objs =
          existT rpcCodec.pointees (ps1 ++ p :: ps2) (papp ps1 (p :: ps2) objs1 (x, objs2)) /\
        all_decoded h ps1 objs1 w /\
        h_decode h p x (snd (after_decodes h ps1 objs1 w)) = ((x', Some e), w2)).
Proof.
  split; [| split; [| split; [| split; [| split]]]].
  - intros objs w. apply write_all.
  - intros pre x post w w2 e. apply write_first_failure.
  - intros objs w. apply write_cases.
  - intros ps objs w. apply read_all.
  - intros ps1 p ps2 objs1 x x' objs2 w w2 e. apply read_first_failure.
  - intros ps objs w. apply read_cases.
Qed.

End StreamCore.

(** On the reference engine: the second of three values cannot be encoded,
    the third is never written; the second of three targets cannot be
    decoded into, the third keeps its content; and a write and a read in
    which nothing fails. *)
Lemma C7_witness :
  (run MiniMsgpack.conn (rpcCodec.write [Byte 1; Uint32 (2 ^ 32); Str "x"]) [] =
     (Some (ErrCodec "integer out of range"), [1]) /\
   calls MiniMsgpack.conn (rpcCodec.write [Byte 1; Uint32 (2 ^ 32); Str "x"]) [] =
     [CEncode (Byte 1); CEncode (Uint32 (2 ^ 32))]) /\
  (run MiniMsgpack.conn
       (rpcCodec.read [PByte; PUint64; PString] (0, (5, ("old"%string, tt))))
       [1; 0xa1; 0x61; 7] =
     (((1, (5, ("old"%string, tt))), Some (ErrCodec "malformed input")), [0xa1; 0x61; 7]) /\
   calls MiniMsgpack.conn
       (rpcCodec.read [PByte; PUint64; PString] (0, (5, ("old"%string, tt))))
       [1; 0xa1; 0x61; 7] =
     [CDecode PByte; CDecode PUint64]) /\
  (run MiniMsgpack.conn (rpcCodec.write [Byte 1; Uint32 7; Str "x"]) [] =
     (None, [1; 7; 0xa1; 0x78]) /\
   calls MiniMsgpack.conn (rpcCodec.write [Byte 1; Uint32 7; Str "x"]) [] =
     [CEncode (Byte 1); CEncode (Uint32 7); CEncode (Str "x")]) /\
  (run MiniMsgpack.conn
       (rpcCodec.read [PByte; PUint64; PString] (0, (5, ("old"%string, tt))))
       [1; 7; 0xa1; 0x78; 0xc0] =
     (((1, (7, ("x"%string, tt))), None), [0xc0]) /\
   calls MiniMsgpack.conn
       (rpcCodec.read [PByte; PUint64; PString] (0, (5, ("old"%string, tt))))
       [1; 7; 0xa1; 0x78; 0xc0] =
     [CDecode PByte; CDecode PUint64; CDecode PString]).
Proof.
  destruct (C7_write_read_stop_at_first_failure MiniMsgpack.conn)
    as (Hwrite_all & Hwrite & _ & Hread_all & Hread & _).
  conjuncts.
  - apply (Hwrite [Byte 1] (Uint32 (2 ^ 32)) [Str "x"] [] [1]
                  (ErrCodec "integer out of range")).
    + simpl. split; [reflexivity | exact I].
    + reflexivity.
  - apply (Hwrite [Byte 1] (Uint32 (2 ^ 32)) [Str "x"] [] [1]
                  (ErrCodec "integer out of range")).
    + simpl. split; [reflexivity | exact I].
    + reflexivity.
  - apply (Hread [PByte] PUint64 [PString] (0, tt) 5 5 ("old"%string, tt)
                 [1; 0xa1; 0x61; 7] [0xa1; 0x61; 7] (ErrCodec "malformed input")).
    + simpl. split; [reflexivity | exact I].
    + reflexivity.
  - apply (Hread [PByte] PUint64 [PString] (0, tt) 5 5 ("old"%string, tt)
                 [1; 0xa1; 0x61; 7] [0xa1; 0x61; 7] (ErrCodec "malformed input")).
    + simpl. split; [reflexivity | exact I].
    + reflexivity.
  - apply (Hwrite_all [Byte 1; Uint32 7; Str "x"] []).
    simpl. conjuncts; reflexivity || exact I.
  - apply (Hwrite_all [Byte 1; Uint32 7; Str "x"] []).
    simpl. conjuncts; reflexivity || exact I.
  - apply (Hread_all [PByte; PUint64; PString] (0, (5, ("old"%string, tt)))
                     [1; 7; 0xa1; 0x78; 0xc0]).
    simpl. conjuncts; reflexivity || exact I.
  - apply (Hread_all [PByte; PUint64; PString] (0, (5, ("old"%string, tt)))
                     [1; 7; 0xa1; 0x78; 0xc0]).
    simpl. conjuncts; reflexivity || exact I.
Defined.

(** ** The header framer *)

Section HeaderFramer.

Context {W : Type} (h : Handler W).

Lemma read_calls_decodes (ps : list ptr) (objs : rpcCodec.pointees ps) (w : W) :
  ~ In CRead1 (calls h (rpcCodec.read ps objs) w).
Proof.
  revert objs w. induction ps as [| p ps IH]; intros objs w.
  - simpl. tauto.
  - rewrite read_cons_calls. intros [Hhd | Htl]; [discriminate |].
    destruct (snd (fst (h_decode h p (fst objs) w))); [exact Htl |].
    exact (IH _ _ Htl).
Qed.

(** The calls of the framer: the raw read, then what [read] does, if it is
    reached at all. *)
Lemma parseCustomHeader_calls (d msgid : Z) (moe : string) (w : W) :
  exists rest,
    calls h (specRpcCodec.parseCustomHeader d msgid moe) w = CRead1 :: rest /\
    ~ In CRead1 rest.
Proof.
  unfold specRpcCodec.parseCustomHeader. rewrite calls_bind, calls_call, run_call.
  simpl handle. destruct (h_read1 h w) as [[[n b0] err] w1]. cbn [fst snd callee_of app].
  destruct err as [e |].
  - exists []. split; [reflexivity | simpl; tauto].
  - destruct (n =? 1); cbn [negb].
    2: { exists []. split; [reflexivity | simpl; tauto]. }
    destruct (b0 =? specRpcCodec.fia); cbn [negb].
    2: { exists []. split; [reflexivity | simpl; tauto]. }
    rewrite calls_bind.
    set (rd := rpcCodec.read [PByte; PUint64; PString] (0, (msgid, (moe, tt)))).
    exists (calls h rd w1). split.
    + f_equal.
      destruct (run h rd w1) as [[[b [m [s u]]] [e |]] w4]; cbn [fst snd].
      * apply app_nil_r.
      * destruct (b =? d); apply app_nil_r.
    + apply read_calls_decodes.
Qed.

(** The descriptor byte is refused: the framer returns before any decode
    and hands back the pointees it was given. *)
Lemma parseCustomHeader_refused (d msgid : Z) (moe : string) (w w1 : W)
      (n b0 : Z) (err : option error) :
  h_read1 h w = ((n, b0, err), w1) ->
  err <> None \/ n <> 1 \/ b0 <> 0x94 ->
  exists e,
    run h (specRpcCodec.parseCustomHeader d msgid moe) w = ((msgid, moe, Some e), w1) /\
    calls h (specRpcCodec.parseCustomHeader d msgid moe) w = [CRead1] /\
    (forall e0, err = Some e0 -> e = e0) /\
    (err = None -> n <> 1 -> e = ErrNoBytesRead) /\
    (err = None -> n = 1 -> e = ErrArrayDescriptor 0x94 b0).
Proof.
  intros Hread Hbad.
  unfold specRpcCodec.parseCustomHeader.
  rewrite run_bind, calls_bind, calls_call, run_call. simpl handle. rewrite Hread. simpl.
  destruct err as [e0 |].
  - exists e0. repeat split; try reflexivity; try discriminate.
    intros e1 [= ->]. reflexivity.
  - destruct (Z.eqb_spec n 1) as [Hn | Hn]; simpl.
    + destruct (Z.eqb_spec b0 specRpcCodec.fia) as [Hb | Hb]; simpl.
      * exfalso. destruct Hbad as [Hbad | [Hbad | Hbad]]; auto.
      * exists (ErrArrayDescriptor 0x94 b0). repeat split; try reflexivity; try discriminate.
        intros _ Hn'. contradiction.
    + exists ErrNoBytesRead. repeat split; try reflexivity; try discriminate.
      intros _ Hn'. contradiction.
Qed.

(** The descriptor byte is accepted and the three decodes succeed: the two
    pointees hold what was decoded, whatever the discriminator turns out to
    be, and the discriminator is compared last. *)
Lemma parseCustomHeader_decoded (d msgid : Z) (moe : string) (w w1 w2 w3 w4 : W)
      (b m : Z) (s : string) :
  h_read1 h w = ((1, 0x94, None), w1) ->
  h_decode h PByte 0 w1 = ((b, None), w2) ->
  h_decode h PUint64 msgid w2 = ((m, None), w3) ->
  h_decode h PString moe w3 = ((s, None), w4) ->
  run h (specRpcCodec.parseCustomHeader d msgid moe) w =
    ((m, s, if b =? d then None else Some (ErrByteDescriptor d b)), w4) /\
  calls h (specRpcCodec.parseCustomHeader d msgid moe) w =
    [CRead1; CDecode PByte; CDecode PUint64; CDecode PString].
Proof.
  intros Hread Hb Hm Hs.
  unfold specRpcCodec.parseCustomHeader.
  rewrite run_bind, calls_bind, calls_call, run_call. simpl handle. rewrite Hread.
  simpl. rewrite Hb. simpl. rewrite Hm. simpl. rewrite Hs. simpl.
  destruct (b =? d); split; reflexivity.
Qed.

End HeaderFramer.

Section SpecHeaders.

Context {W : Type} (h : Handler W).

(** C2. A header read of the Spec protocol starts with one raw one-byte
    read of the connection, and that is its only raw read.  When that read
    returns an error, a count other than one, or a byte other than [0x94],
    the header read returns an error (the connection's own, "no bytes read",
    or "unexpected array descriptor"), makes no call to the Decoder, and
    hands the request or response back with every field as it was. *)
Theorem C2_descriptor_refused_nothing_written :
  (forall r w, exists rest,
      calls h (specRpcCodec.ReadRequestHeader r) w = CRead1 :: rest /\ ~ In CRead1 rest) /\
  (forall r w, exists rest,
      calls h (specRpcCodec.ReadResponseHeader r) w = CRead1 :: rest /\ ~ In CRead1 rest) /\
  (forall r w w1 n b0 err,
      h_read1 h w = ((n, b0, err), w1) ->
      err <> None \/ n <> 1 \/ b0 <> 0x94 ->
      exists e,
        run h (specRpcCodec.ReadRequestHeader r) w = ((r, Some e), w1) /\
        calls h (specRpcCodec.ReadRequestHeader r) w = [CRead1] /\
        (forall e0, err = Some e0 -> e = e0) /\
        (err = None -> n <> 1 -> e = ErrNoBytesRead) /\
        (err = None -> n = 1 -> e = ErrArrayDescriptor 0x94 b0)) /\
  (forall r w w1 n b0 err,
      h_read1 h w = ((n, b0, err), w1) ->
      err <> None \/ n <> 1 \/ b0 <> 0x94 ->
      exists e,
        run h (specRpcCodec.ReadResponseHeader r) w = ((r, Some e), w1) /\
        calls h (specRpcCodec.ReadResponseHeader r) w = [CRead1] /\
        (forall e0, err = Some e0 -> e = e0) /\
        (err = None -> n <> 1 -> e = ErrNoBytesRead) /\
        (err = None -> n = 1 -> e = ErrArrayDescriptor 0x94 b0)).
Proof.
  split; [| split; [| split]].
  - intros r w. unfold specRpcCodec.ReadRequestHeader. rewrite calls_bind.
    destruct (parseCustomHeader_calls h 0 (req_Seq r) (req_ServiceMethod r) w)
      as (rest & Hcalls & Hrest).
    exists rest. rewrite Hcalls.
    destruct (run h _ w) as [[[seq m] err] w']. cbn [fst snd calls].
    rewrite app_nil_r. split; [reflexivity | exact Hrest].
  - intros r w. unfold specRpcCodec.ReadResponseHeader. rewrite calls_bind.
    destruct (parseCustomHeader_calls h 1 (resp_Seq r) (resp_Error r) w)
      as (rest & Hcalls & Hrest).
    exists rest. rewrite Hcalls.
    destruct (run h _ w) as [[[seq m] err] w']. cbn [fst snd calls].
    rewrite app_nil_r. split; [reflexivity | exact Hrest].
  - intros r w w1 n b0 err Hread Hbad.
    destruct (parseCustomHeader_refused h 0 (req_Seq r) (req_ServiceMethod r) w Hread Hbad)
      as (e & Hrun & Hcalls & He).
    exists e. unfold specRpcCodec.ReadRequestHeader.
    rewrite run_bind, calls_bind, Hrun, Hcalls. destruct r as [m seq].
    split; [reflexivity | split; [reflexivity | exact He]].
  - intros r w w1 n b0 err Hread Hbad.
    destruct (parseCustomHeader_refused h 1 (resp_Seq r) (resp_Error r) w Hread Hbad)
      as (e & Hrun & Hcalls & He).
    exists e. unfold specRpcCodec.ReadResponseHeader.
    rewrite run_bind, calls_bind, Hrun, Hcalls. destruct r as [m seq er].
    split; [reflexivity | split; [reflexivity | exact He]].
Qed.

(** C5. Once the descriptor byte is accepted, a header read decodes three
    values in a row, into a byte, a 64-bit unsigned integer and a string, and
    only then compares the byte with the discriminator it expects, [0] for a
    request and [1] for a response: it succeeds when they agree and returns
    "unexpected byte descriptor" when they differ.  A request header read
    that decodes the discriminator [1] of a response therefore fails. *)
Theorem C5_discriminator_checked_after_three_decodes :
  (forall r w w1 w2 w3 w4 b m s,
      h_read1 h w = ((1, 0x94, None), w1) ->
      h_decode h PByte 0 w1 = ((b, None), w2) ->
      h_decode h PUint64 (req_Seq r) w2 = ((m, None), w3) ->
      h_decode h PString (req_ServiceMethod r) w3 = ((s, None), w4) ->
      calls h (specRpcCodec.ReadRequestHeader r) w =
        [CRead1; CDecode PByte; CDecode PUint64; CDecode PString] /\
      snd (fst (run h (specRpcCodec.ReadRequestHeader r) w)) =
        (if b =? 0 then None else Some (ErrByteDescriptor 0 b)) /\
      (b = 1 -> snd (fst (run h (specRpcCodec.ReadRequestHeader r) w)) =
                Some (ErrByteDescriptor 0 1))) /\
  (forall r w w1 w2 w3 w4 b m s,
      h_read1 h w = ((1, 0x94, None), w1) ->
      h_decode h PByte 0 w1 = ((b, None), w2) ->
      h_decode h PUint64 (resp_Seq r) w2 = ((m, None), w3) ->
      h_decode h PString (resp_Error r) w3 = ((s, None), w4) ->
      calls h (specRpcCodec.ReadResponseHeader r) w =
        [CRead1; CDecode PByte; CDecode PUint64; CDecode PString] /\
      snd (fst (run h (specRpcCodec.ReadResponseHeader r) w)) =
        (if b =? 1 then None else Some (ErrByteDescriptor 1 b))).
Proof.
  split.
  - intros r w w1 w2 w3 w4 b m s Hread Hb Hm Hs.
    destruct (parseCustomHeader_decoded h 0 _ _ _ Hread Hb Hm Hs) as [Hrun Hcalls].
    unfold specRpcCodec.ReadRequestHeader. rewrite run_bind, calls_bind, Hrun, Hcalls.
    split; [reflexivity | split; [reflexivity |]].
    intros ->. reflexivity.
  - intros r w w1 w2 w3 w4 b m s Hread Hb Hm Hs.
    destruct (parseCustomHeader_decoded h 1 _ _ _ Hread Hb Hm Hs) as [Hrun Hcalls].
    unfold specRpcCodec.ReadResponseHeader. rewrite run_bind, calls_bind, Hrun, Hcalls.
    split; reflexivity.
Qed.

(** C10. When a header read fails on the discriminator, the sequence number
    and the string decoded from the stream are already stored in the
    caller's request or response: the error comes back together with the
    overwritten fields. *)
Theorem C10_discriminator_mismatch_fields_overwritten :
  (forall r w w1 w2 w3 w4 b m s,
      h_read1 h w = ((1, 0x94, None), w1) ->
      h_decode h PByte 0 w1 = ((b, None), w2) ->
      h_decode h PUint64 (req_Seq r) w2 = ((m, None), w3) ->
      h_decode h PString (req_ServiceMethod r) w3 = ((s, None), w4) ->
      b <> 0 ->
      run h (specRpcCodec.ReadRequestHeader r) w =
        ((mkRequest s m, Some (ErrByteDescriptor 0 b)), w4)) /\
  (forall r w w1 w2 w3 w4 b m s,
      h_read1 h w = ((1, 0x94, None), w1) ->
      h_decode h PByte 0 w1 = ((b, None), w2) ->
      h_decode h PUint64 (resp_Seq r) w2 = ((m, None), w3) ->
      h_decode h PString (resp_Error r) w3 = ((s, None), w4) ->
      b <> 1 ->
      run h (specRpcCodec.ReadResponseHeader r) w =
        ((mkResponse (resp_ServiceMethod r) m s, Some (ErrByteDescriptor 1 b)), w4)).
Proof.
  split.
  - intros r w w1 w2 w3 w4 b m s Hread Hb Hm Hs Hne.
    destruct (parseCustomHeader_decoded h 0 _ _ _ Hread Hb Hm Hs) as [Hrun _].
    unfold specRpcCodec.ReadRequestHeader. rewrite run_bind, Hrun. cbn [fst snd run].
    destruct (Z.eqb_spec b 0) as [Heq | _]; [contradiction | reflexivity].
  - intros r w w1 w2 w3 w4 b m s Hread Hb Hm Hs Hne.
    destruct (parseCustomHeader_decoded h 1 _ _ _ Hread Hb Hm Hs) as [Hrun _].
    unfold specRpcCodec.ReadResponseHeader. rewrite run_bind, Hrun. cbn [fst snd run].
    destruct (Z.eqb_spec b 1) as [Heq | _]; [contradiction | reflexivity].
Qed.

End SpecHeaders.

(** On the reference engine: a stream that starts with the descriptor of a
    three-item array, and an empty stream. *)
Lemma C2_witness :
  (run MiniMsgpack.conn (specRpcCodec.ReadRequestHeader (mkRequest "old" 55))
       [0x93; 0; 7; 0xa1; 0x61] =
     ((mkRequest "old" 55, Some (ErrArrayDescriptor 0x94 0x93)), [0; 7; 0xa1; 0x61]) /\
   calls MiniMsgpack.conn (specRpcCodec.ReadRequestHeader (mkRequest "old" 55))
       [0x93; 0; 7; 0xa1; 0x61] = [CRead1]) /\
  (run MiniMsgpack.conn (specRpcCodec.ReadResponseHeader (mkResponse "m" 55 "old")) [] =
     ((mkResponse "m" 55 "old", Some (ErrIO "EOF")), []) /\
   calls MiniMsgpack.conn (specRpcCodec.ReadResponseHeader (mkResponse "m" 55 "old")) [] =
     [CRead1]).
Proof.
  destruct (C2_descriptor_refused_nothing_written MiniMsgpack.conn)
    as (_ & _ & Hreq & Hresp).
  split.
  - destruct (Hreq (mkRequest "old" 55) [0x93; 0; 7; 0xa1; 0x61] [0; 7; 0xa1; 0x61]
                   1 0x93 None)
      as (e & Hrun & Hcalls & _ & _ & He).
    + reflexivity.
    + right. right. lia.
    + rewrite (He eq_refl eq_refl) in Hrun. split; [exact Hrun | exact Hcalls].
  - destruct (Hresp (mkResponse "m" 55 "old") [] [] 0 0 (Some (ErrIO "EOF")))
      as (e & Hrun & Hcalls & He & _ & _).
    + reflexivity.
    + left. discriminate.
    + rewrite (He _ eq_refl) in Hrun. split; [exact Hrun | exact Hcalls].
Defined.

(** On the reference engine: a request header read from the stream that
    [WriteResponse] produced. *)
Lemma C5_witness :
  calls MiniMsgpack.conn (specRpcCodec.ReadRequestHeader (mkRequest "" 0))
        MiniMsgpack.failed_call =
    [CRead1; CDecode PByte; CDecode PUint64; CDecode PString] /\
  snd (fst (run MiniMsgpack.conn (specRpcCodec.ReadRequestHeader (mkRequest "" 0))
                MiniMsgpack.failed_call)) =
    Some (ErrByteDescriptor 0 1).
Proof.
  destruct (C5_discriminator_checked_after_three_decodes MiniMsgpack.conn) as [Hreq _].
  edestruct (Hreq (mkRequest "" 0) MiniMsgpack.failed_call) as (Hcalls & _ & Herr);
    [reflexivity | reflexivity | reflexivity | reflexivity |].
  split; [exact Hcalls | exact (Herr eq_refl)].
Defined.

(** On the reference engine: the request handed to a header read that fails
    on the discriminator comes back with the sequence number and the string
    of the response on the stream. *)
Lemma C10_witness :
  run MiniMsgpack.conn (specRpcCodec.ReadRequestHeader (mkRequest "Arith.Add" 7))
      MiniMsgpack.failed_call =
    ((mkRequest "division by zero" 9, Some (ErrByteDescriptor 0 1)), [0xc0]).
Proof.
  destruct (C10_discriminator_mismatch_fields_overwritten MiniMsgpack.conn) as [Hreq _].
  eapply (Hreq (mkRequest "Arith.Add" 7) MiniMsgpack.failed_call);
    [reflexivity | reflexivity | reflexivity | reflexivity | lia].
Defined.

(** ** The envelopes written by the Spec protocol *)

Lemma r2_request (r : Request) (body : value) :
  specRpcCodec.r2 0 (req_Seq r) (req_ServiceMethod r) (Slice [body]) = spec_request r body.
Proof. reflexivity. Qed.

Lemma r2_response (r : Response) (body : value) :
  specRpcCodec.r2 1 (resp_Seq r) (resp_Error r) body = spec_response r body.
Proof.
  unfold specRpcCodec.r2, spec_response, spec_body, spec_moe, uint32.
  destruct (resp_Error r) as [| a e]; destruct body; reflexivity.
Qed.

Lemma slice_not_itself (v : value) : v <> Slice [v].
Proof.
  intros Heq. apply (f_equal depth) in Heq. simpl in Heq.
  rewrite Nat.max_0_r in Heq. exact (n_Sn _ Heq).
Qed.

Lemma spec_body_cases (r : Response) (body : value) :
  (spec_body r body = body \/ spec_body r body = Nil) /\ spec_body r body <> Slice [body].
Proof.
  unfold spec_body.
  destruct (spec_moe r); destruct body;
    (split; [auto | first [discriminate | apply slice_not_itself]]).
Qed.

Section SpecWriters.

Context {W : Type} (h : Handler W).

(** C1. [WriteResponse] hands the Encoder exactly one value, the four-slot
    array [[1, uint32(Seq), moe, body]].  The error slot is the "no value"
    marker, and not an empty string, when the error message is empty, and the
    message otherwise; when the message is not empty and the body given is
    not nil the body slot is the "no value" marker; in every other case the
    body slot is the body given, as it is, without a one-item array around
    it. *)
Theorem C1_writeResponse_envelope (r : Response) (body : value) (w : W) :
  calls h (specRpcCodec.WriteResponse r body) w = [CEncode (spec_response r body)] /\
  run h (specRpcCodec.WriteResponse r body) w = h_encode h (spec_response r body) w /\
  spec_response r body =
    Slice [Byte 1; Uint32 (uint32 (resp_Seq r)); spec_moe r; spec_body r body] /\
  (resp_Error r = EmptyString -> spec_moe r = Nil /\ spec_moe r <> Str EmptyString) /\
  (resp_Error r <> EmptyString -> spec_moe r = Str (resp_Error r)) /\
  (resp_Error r <> EmptyString -> body <> Nil -> spec_body r body = Nil) /\
  (resp_Error r = EmptyString \/ body = Nil -> spec_body r body = body) /\
  spec_body r body <> Slice [body].
Proof.
  unfold specRpcCodec.WriteResponse, specRpcCodec.writeCustomBody.
  rewrite calls_call, run_call, r2_response. simpl handle. simpl callee_of.
  conjuncts; try reflexivity.
  - unfold spec_moe. intros ->. split; [reflexivity | discriminate].
  - unfold spec_moe. destruct (resp_Error r); [intros Hne; contradiction | reflexivity].
  - unfold spec_body, spec_moe.
    destruct (resp_Error r); [intros Hne; contradiction |].
    intros _ Hbody. destruct body; [contradiction | reflexivity ..].
  - unfold spec_body, spec_moe. intros [-> | ->]; [reflexivity |].
    destruct (resp_Error r); reflexivity.
  - apply spec_body_cases.
Qed.

(** C4. [WriteRequest] hands the Encoder exactly one value, the four-slot
    array [[0, uint32(Seq), ServiceMethod, [body]]], whose last slot is a
    one-item array around the body.  The last slot of what [WriteResponse]
    encodes for the same body is the body itself or the "no value" marker,
    never that one-item array. *)
Theorem C4_writeRequest_envelope (r : Request) (body : value) (w : W) :
  calls h (specRpcCodec.WriteRequest r body) w = [CEncode (spec_request r body)] /\
  run h (specRpcCodec.WriteRequest r body) w = h_encode h (spec_request r body) w /\
  spec_request r body =
    Slice [Byte 0; Uint32 (uint32 (req_Seq r)); Str (req_ServiceMethod r); Slice [body]] /\
  body_slot (spec_request r body) = Some (Slice [body]) /\
  forall r' : Response, exists env slot,
    calls h (specRpcCodec.WriteResponse r' body) w = [CEncode env] /\
    body_slot env = Some slot /\
    (slot = body \/ slot = Nil) /\ slot <> Slice [body].
Proof.
  unfold specRpcCodec.WriteRequest, specRpcCodec.WriteResponse, specRpcCodec.writeCustomBody.
  rewrite calls_call, run_call, r2_request. simpl handle. simpl callee_of.
  conjuncts; try reflexivity.
  intros r'. exists (spec_response r' body), (spec_body r' body).
  rewrite calls_call, r2_response. simpl callee_of.
  split; [reflexivity | split; [reflexivity | apply spec_body_cases]].
Qed.

End SpecWriters.

(** C8. The claim fails on the code.  [writeCustomBody] announces that
    "only one of error or body can be nil", yet it guards only against both
    being present: a response with an empty error message and a nil body is
    handed to the Encoder as [[1, uint32(Seq), nil, nil]], whatever its
    sequence number and service method.  For sequence number 7 the reference
    engine puts [0x94 01 07 c0 c0] on the stream, an envelope that carries
    neither an error nor a body. *)
Theorem C8_no_error_nil_body_both_slots_absent :
  (forall (W : Type) (h : Handler W) (w : W) (m : string) (seq : Z),
      calls h (specRpcCodec.WriteResponse (mkResponse m seq "") Nil) w =
        [CEncode (Slice [Byte 1; Uint32 (uint32 seq); Nil; Nil])] /\
      ~ error_xor_body (Slice [Byte 1; Uint32 (uint32 seq); Nil; Nil])) /\
  calls MiniMsgpack.conn (specRpcCodec.WriteResponse (mkResponse "Arith.Nop" 7 "") Nil) [] =
    [CEncode (Slice [Byte 1; Uint32 7; Nil; Nil])] /\
  run MiniMsgpack.conn (specRpcCodec.WriteResponse (mkResponse "Arith.Nop" 7 "") Nil) [] =
    (None, [0x94; 1; 7; 0xc0; 0xc0]).
Proof.
  split; [| split; reflexivity].
  intros W h w m seq. split.
  - unfold specRpcCodec.WriteResponse, specRpcCodec.writeCustomBody.
    rewrite calls_call. reflexivity.
  - unfold error_xor_body. simpl. discriminate.
Qed.

(** On the reference engine: an error message together with a body. *)
Lemma C1_witness :
  calls MiniMsgpack.conn
        (specRpcCodec.WriteResponse (mkResponse "" 9 "division by zero") (Uint64 0)) [] =
    [CEncode (Slice [Byte 1; Uint32 9; Str "division by zero"; Nil])] /\
  spec_moe (mkResponse "" 9 "") = Nil.
Proof.
  destruct (C1_writeResponse_envelope MiniMsgpack.conn
              (mkResponse "" 9 "division by zero") (Uint64 0) [])
    as (Hcalls & _ & Henv & _ & Hmoe & Hbody & _).
  destruct (C1_writeResponse_envelope MiniMsgpack.conn (mkResponse "" 9 "") Nil [])
    as (_ & _ & _ & Hempty & _).
  split.
  - rewrite Hcalls, Henv, Hmoe, Hbody; [reflexivity | discriminate ..].
  - exact (proj1 (Hempty eq_refl)).
Defined.

(** ** Writing and reading over the byte pipe *)

Section PipeFacts.

Variable marshal : value -> list Z * option error.
Variable unmarshal : forall p : ptr, pointee p -> list Z -> pointee p * list Z * option error.

Lemma pipe_encode (v : value) (w : list Z) :
  h_encode (pipe marshal unmarshal) v w = (snd (marshal v), w ++ wire marshal v).
Proof. unfold wire. simpl. destruct (marshal v). reflexivity. Qed.

Lemma pipe_decode (p : ptr) (v : value) (x cur : pointee p) (rest : list Z) :
  inverts marshal unmarshal p v x ->
  h_decode (pipe marshal unmarshal) p cur (wire marshal v ++ rest) = ((x, None), rest).
Proof. intros [_ Hinv]. simpl. rewrite Hinv. reflexivity. Qed.

(** The framer reads back the first three slots of a four-slot envelope and
    leaves the fourth on the stream. *)
Lemma pipe_header (d n : Z) (moe body : value) (e : string)
      (cur_id : Z) (cur_s : string) (rest : list Z) :
  fixarray4 marshal (Byte d) (Uint32 n) moe body ->
  inverts marshal unmarshal PByte (Byte d) d ->
  inverts marshal unmarshal PUint64 (Uint32 n) n ->
  inverts marshal unmarshal PString moe e ->
  run (pipe marshal unmarshal) (specRpcCodec.parseCustomHeader d cur_id cur_s)
      (wire marshal (Slice [Byte d; Uint32 n; moe; body]) ++ rest) =
    ((n, e, None), wire marshal body ++ rest) /\
  calls (pipe marshal unmarshal) (specRpcCodec.parseCustomHeader d cur_id cur_s)
      (wire marshal (Slice [Byte d; Uint32 n; moe; body]) ++ rest) =
    [CRead1; CDecode PByte; CDecode PUint64; CDecode PString].
Proof.
  intros Harr Hd Hn He.
  unfold wire at 1 3. rewrite Harr. cbn [fst]. rewrite <- app_comm_cons, <- !app_assoc.
  destruct (parseCustomHeader_decoded (pipe marshal unmarshal) d cur_id cur_s
              (specRpcCodec.fia :: wire marshal (Byte d) ++ wire marshal (Uint32 n)
                 ++ wire marshal moe ++ wire marshal body ++ rest)
              (b := d) (m := n) (s := e) eq_refl
              (@pipe_decode PByte _ _ 0 _ Hd) (@pipe_decode PUint64 _ _ cur_id _ Hn)
              (@pipe_decode PString _ _ cur_s _ He))
    as [Hrun Hcalls].
  rewrite Z.eqb_refl in Hrun. split; [exact Hrun | exact Hcalls].
Qed.

End PipeFacts.

Section RoundTrip.

Variable marshal : value -> list Z * option error.
Variable unmarshal : forall p : ptr, pointee p -> list Z -> pointee p * list Z * option error.

Lemma pipe_writeCustomBody (d n : Z) (m : string) (body : value) (moe slot : value) :
  specRpcCodec.r2 d n m body = Slice [Byte d; Uint32 (uint32 n); moe; slot] ->
  fixarray4 marshal (Byte d) (Uint32 (uint32 n)) moe slot ->
  run (pipe marshal unmarshal) (specRpcCodec.writeCustomBody d n m body) [] =
    (None, wire marshal (Slice [Byte d; Uint32 (uint32 n); moe; slot]) ++ []).
Proof.
  intros Henv Harr. unfold specRpcCodec.writeCustomBody.
  rewrite run_call. cbn [handle]. rewrite pipe_encode, Henv, Harr.
  rewrite app_nil_r. reflexivity.
Qed.

(** C3. On one stream, with an engine that writes the envelope as [0x94]
    followed by its four slots and whose Decoder inverts its Encoder on
    them: [WriteRequest r body], then [ReadRequestHeader], then
    [ReadRequestBody] all succeed, the request read has the method name of
    [r] and the sequence number [uint32(r.Seq)], the body read is [body],
    and the stream is left empty. *)
Theorem C3_request_round_trip (r : Request) (body : value) (r0 : Request) (body0 : value) :
  fixarray4 marshal (Byte 0) (Uint32 (uint32 (req_Seq r)))
            (Str (req_ServiceMethod r)) (Slice [body]) ->
  inverts marshal unmarshal PByte (Byte 0) 0 ->
  inverts marshal unmarshal PUint64 (Uint32 (uint32 (req_Seq r))) (uint32 (req_Seq r)) ->
  inverts marshal unmarshal PString (Str (req_ServiceMethod r)) (req_ServiceMethod r) ->
  inverts marshal unmarshal PBodyArr (Slice [body]) body ->
  run (pipe marshal unmarshal)
      (werr <- specRpcCodec.WriteRequest r body ;;
       '(r', herr) <- specRpcCodec.ReadRequestHeader r0 ;;
       '(body', berr) <- specRpcCodec.ReadRequestBody body0 ;;
       Ret (werr, herr, berr, r', body')) [] =
    ((None, None, None, mkRequest (req_ServiceMethod r) (uint32 (req_Seq r)), body), []).
Proof.
  intros Harr Hd Hn Hm Hbody.
  rewrite run_bind. unfold specRpcCodec.WriteRequest.
  rewrite (@pipe_writeCustomBody 0 (req_Seq r) (req_ServiceMethod r) (Slice [body])
             _ _ eq_refl Harr). cbn [fst snd].
  rewrite run_bind. unfold specRpcCodec.ReadRequestHeader. rewrite run_bind.
  destruct (pipe_header (req_Seq r0) (req_ServiceMethod r0) [] Harr Hd Hn Hm) as [Hrun _].
  rewrite Hrun. cbn [fst snd run].
  rewrite run_bind. unfold specRpcCodec.ReadRequestBody. rewrite run_call.
  cbn [handle]. rewrite (@pipe_decode _ _ PBodyArr _ _ body0 [] Hbody). reflexivity.
Qed.

Lemma pipe_writeCustomBody_calls (d n : Z) (m : string) (body : value) (w : list Z) :
  calls (pipe marshal unmarshal) (specRpcCodec.writeCustomBody d n m body) w =
    [CEncode (specRpcCodec.r2 d n m body)].
Proof. unfold specRpcCodec.writeCustomBody. apply calls_call. Qed.

Lemma uint32_range (s : Z) : 0 <= uint32 s < 2 ^ 32.
Proof. unfold uint32. apply Z.mod_pos_bound. lia. Qed.

Lemma uint32_truncates (s : Z) : 2 ^ 32 <= s -> uint32 s <> s.
Proof. intros Hs Heq. pose proof (uint32_range s) as Hr. rewrite Heq in Hr. lia. Qed.

(** C6. The writer puts [uint32(s)], that is [s mod 2^32], in the
    sequence-number slot of a request as of a response; the header read
    decodes that slot into the 64-bit field.  So a sequence number written
    and read back over one stream comes back as [s mod 2^32], which for any
    [s] of [2^32] or more is not [s]. *)
Theorem C6_sequence_number_truncated_on_write (s : Z) :
  is_uint64 s ->
  (0 <= uint32 s < 2 ^ 32 /\ uint32 s = s mod 2 ^ 32 /\ uint32 s = Z.land s (Z.ones 32)) /\
  (forall r body w, req_Seq r = s ->
     exists moe slot,
       calls (pipe marshal unmarshal) (specRpcCodec.WriteRequest r body) w =
         [CEncode (Slice [Byte 0; Uint32 (s mod 2 ^ 32); moe; slot])]) /\
  (forall r body w, resp_Seq r = s ->
     exists moe slot,
       calls (pipe marshal unmarshal) (specRpcCodec.WriteResponse r body) w =
         [CEncode (Slice [Byte 1; Uint32 (s mod 2 ^ 32); moe; slot])]) /\
  (forall r body r0, req_Seq r = s ->
     fixarray4 marshal (Byte 0) (Uint32 (uint32 s)) (Str (req_ServiceMethod r)) (Slice [body]) ->
     inverts marshal unmarshal PByte (Byte 0) 0 ->
     inverts marshal unmarshal PUint64 (Uint32 (uint32 s)) (uint32 s) ->
     inverts marshal unmarshal PString (Str (req_ServiceMethod r)) (req_ServiceMethod r) ->
     fst (run (pipe marshal unmarshal)
              (_ <- specRpcCodec.WriteRequest r body ;; specRpcCodec.ReadRequestHeader r0) []) =
       (mkRequest (req_ServiceMethod r) (s mod 2 ^ 32), None) /\
     calls (pipe marshal unmarshal)
           (_ <- specRpcCodec.WriteRequest r body ;; specRpcCodec.ReadRequestHeader r0) [] =
       [CEncode (spec_request r body); CRead1; CDecode PByte; CDecode PUint64; CDecode PString] /\
     (2 ^ 32 <= s -> s mod 2 ^ 32 <> req_Seq r)) /\
  (forall r body r0 e, resp_Seq r = s ->
     fixarray4 marshal (Byte 1) (Uint32 (uint32 s)) (spec_moe r) (spec_body r body) ->
     inverts marshal unmarshal PByte (Byte 1) 1 ->
     inverts marshal unmarshal PUint64 (Uint32 (uint32 s)) (uint32 s) ->
     inverts marshal unmarshal PString (spec_moe r) e ->
     fst (run (pipe marshal unmarshal)
              (_ <- specRpcCodec.WriteResponse r body ;; specRpcCodec.ReadResponseHeader r0) []) =
       (mkResponse (resp_ServiceMethod r0) (s mod 2 ^ 32) e, None) /\
     calls (pipe marshal unmarshal)
           (_ <- specRpcCodec.WriteResponse r body ;; specRpcCodec.ReadResponseHeader r0) [] =
       [CEncode (spec_response r body); CRead1; CDecode PByte; CDecode PUint64; CDecode PString] /\
     (2 ^ 32 <= s -> s mod 2 ^ 32 <> resp_Seq r)).
Proof.
  intros Hs. split; [split; [apply uint32_range | split; [reflexivity |]] | conjuncts].
  - unfold uint32. rewrite Z.land_ones by lia. reflexivity.
  - intros r body w <-. exists (Str (req_ServiceMethod r)), (Slice [body]).
    unfold specRpcCodec.WriteRequest. rewrite pipe_writeCustomBody_calls, r2_request.
    reflexivity.
  - intros r body w <-. exists (spec_moe r), (spec_body r body).
    unfold specRpcCodec.WriteResponse. rewrite pipe_writeCustomBody_calls, r2_response.
    reflexivity.
  - intros r body r0 <- Harr Hd Hn Hm.
    destruct (pipe_header (req_Seq r0) (req_ServiceMethod r0) [] Harr Hd Hn Hm)
      as [Hrun Hcalls].
    rewrite run_bind, calls_bind. unfold specRpcCodec.WriteRequest at 1 2 3.
    rewrite (@pipe_writeCustomBody 0 (req_Seq r) (req_ServiceMethod r) (Slice [body])
               _ _ eq_refl Harr), pipe_writeCustomBody_calls, r2_request.
    cbn [fst snd]. unfold specRpcCodec.ReadRequestHeader.
    rewrite run_bind, calls_bind, Hrun, Hcalls. conjuncts; try reflexivity.
    apply uint32_truncates.
  - intros r body r0 e <- Harr Hd Hn He.
    destruct (pipe_header (resp_Seq r0) (resp_Error r0) [] Harr Hd Hn He)
      as [Hrun Hcalls].
    rewrite run_bind, calls_bind. unfold specRpcCodec.WriteResponse at 1 2 3.
    rewrite (@pipe_writeCustomBody 1 (resp_Seq r) (resp_Error r) body
               _ _ (r2_response r body) Harr), pipe_writeCustomBody_calls, r2_response.
    cbn [fst snd]. unfold specRpcCodec.ReadResponseHeader.
    rewrite run_bind, calls_bind, Hrun, Hcalls. conjuncts; try reflexivity.
    apply uint32_truncates.
Qed.

End RoundTrip.

(** On the reference engine: the request of sequence number [2^32 + 7] and
    body [[1, 2]] comes back with sequence number [7]. *)
Lemma C3_witness :
  run MiniMsgpack.conn
      (werr <- specRpcCodec.WriteRequest (mkRequest "Arith.Add" (2 ^ 32 + 7))
                 (Slice [Uint64 1; Uint64 2]) ;;
       '(r', herr) <- specRpcCodec.ReadRequestHeader (mkRequest "" 0) ;;
       '(body', berr) <- specRpcCodec.ReadRequestBody Nil ;;
       Ret (werr, herr, berr, r', body')) [] =
    ((None, None, None, mkRequest "Arith.Add" 7, Slice [Uint64 1; Uint64 2]), []).
Proof.
  apply (@C3_request_round_trip MiniMsgpack.marshal MiniMsgpack.unmarshal
           (mkRequest "Arith.Add" (2 ^ 32 + 7)) (Slice [Uint64 1; Uint64 2])
           (mkRequest "" 0) Nil).
  - reflexivity.
  - split; [reflexivity | intros cur rest; reflexivity].
  - split; [reflexivity | intros cur rest; reflexivity].
  - split; [reflexivity | intros cur rest; reflexivity].
  - split; [reflexivity | intros cur rest; reflexivity].
Defined.

(** On the reference engine: sequence number [2^32 + 7], on a request and on
    a response without error. *)
Lemma C6_witness :
  (fst (run MiniMsgpack.conn
            (_ <- specRpcCodec.WriteRequest (mkRequest "Arith.Add" (2 ^ 32 + 7)) Nil ;;
             specRpcCodec.ReadRequestHeader (mkRequest "" 0)) []) =
     (mkRequest "Arith.Add" 7, None) /\
   7 <> 2 ^ 32 + 7) /\
  (fst (run MiniMsgpack.conn
            (_ <- specRpcCodec.WriteResponse (mkResponse "" (2 ^ 32 + 7) "") (Uint64 3) ;;
             specRpcCodec.ReadResponseHeader (mkResponse "Arith.Add" 0 "stale")) []) =
     (mkResponse "Arith.Add" 7 "", None) /\
   7 <> 2 ^ 32 + 7).
Proof.
  assert (Hs : is_uint64 (2 ^ 32 + 7)) by (unfold is_uint64; lia).
  destruct (@C6_sequence_number_truncated_on_write
              MiniMsgpack.marshal MiniMsgpack.unmarshal (2 ^ 32 + 7) Hs)
    as (_ & _ & _ & Hreq & Hresp).
  split.
  - destruct (Hreq (mkRequest "Arith.Add" (2 ^ 32 + 7)) Nil (mkRequest "" 0))
      as (Hrun & _ & Hne).
    + reflexivity.
    + reflexivity.
    + split; [reflexivity | intros cur rest; reflexivity].
    + split; [reflexivity | intros cur rest; reflexivity].
    + split; [reflexivity | intros cur rest; reflexivity].
    + split; [exact Hrun | apply Hne; lia].
  - destruct (Hresp (mkResponse "" (2 ^ 32 + 7) "") (Uint64 3)
                    (mkResponse "Arith.Add" 0 "stale") EmptyString)
      as (Hrun & _ & Hne).
    + reflexivity.
    + reflexivity.
    + split; [reflexivity | intros cur rest; reflexivity].
    + split; [reflexivity | intros cur rest; reflexivity].
    + split; [reflexivity | intros cur rest; reflexivity].
    + split; [exact Hrun | apply Hne; lia].
Defined.

(** ** The basic protocol *)

Section BasicProtocol.

Context {W : Type} (h : Handler W).

(** C9. On the basic protocol a write hands the Encoder the envelope and
    then the body, two values and no other call (the body is not reached
    when the envelope fails); over a byte pipe the bytes written are those of
    the envelope followed by those of the body and nothing else.  Each of the
    four reads is one call of the Decoder on its target, and returns what
    that call returns. *)
Theorem C9_basic_protocol_two_values :
  (forall r body w,
      calls h (goRpcCodec.WriteRequest r body) w =
        CEncode (RequestPtr r) ::
        match fst (h_encode h (RequestPtr r) w) with
        | None => [CEncode body]
        | Some _ => []
        end) /\
  (forall r body w,
      calls h (goRpcCodec.WriteResponse r body) w =
        CEncode (ResponsePtr r) ::
        match fst (h_encode h (ResponsePtr r) w) with
        | None => [CEncode body]
        | Some _ => []
        end) /\
  (forall marshal unmarshal r body w,
      snd (marshal (RequestPtr r)) = None -> snd (marshal body) = None ->
      run (pipe marshal unmarshal) (goRpcCodec.WriteRequest r body) w =
        (None, w ++ wire marshal (RequestPtr r) ++ wire marshal body)) /\
  (forall marshal unmarshal r body w,
      snd (marshal (ResponsePtr r)) = None -> snd (marshal body) = None ->
      run (pipe marshal unmarshal) (goRpcCodec.WriteResponse r body) w =
        (None, w ++ wire marshal (ResponsePtr r) ++ wire marshal body)) /\
  (forall r w,
      calls h (goRpcCodec.ReadRequestHeader r) w = [CDecode PRequest] /\
      run h (goRpcCodec.ReadRequestHeader r) w = h_decode h PRequest r w) /\
  (forall body w,
      calls h (goRpcCodec.ReadRequestBody body) w = [CDecode PBody] /\
      run h (goRpcCodec.ReadRequestBody body) w = h_decode h PBody body w) /\
  (forall r w,
      calls h (goRpcCodec.ReadResponseHeader r) w = [CDecode PResponse] /\
      run h (goRpcCodec.ReadResponseHeader r) w = h_decode h PResponse r w) /\
  (forall body w,
      calls h (goRpcCodec.ReadResponseBody body) w = [CDecode PBody] /\
      run h (goRpcCodec.ReadResponseBody body) w = h_decode h PBody body w).
Proof.
  conjuncts.
  - intros r body w. unfold goRpcCodec.WriteRequest.
    rewrite write_cons_calls. destruct (fst (h_encode h (RequestPtr r) w)); [reflexivity |].
    rewrite write_cons_calls. destruct (fst (h_encode h body _)); reflexivity.
  - intros r body w. unfold goRpcCodec.WriteResponse.
    rewrite write_cons_calls. destruct (fst (h_encode h (ResponsePtr r) w)); [reflexivity |].
    rewrite write_cons_calls. destruct (fst (h_encode h body _)); reflexivity.
  - intros marshal unmarshal r body w Hr Hbody. unfold goRpcCodec.WriteRequest.
    rewrite !write_cons, !pipe_encode. cbn [fst snd]. rewrite Hr, Hbody.
    rewrite <- app_assoc. reflexivity.
  - intros marshal unmarshal r body w Hr Hbody. unfold goRpcCodec.WriteResponse.
    rewrite !write_cons, !pipe_encode. cbn [fst snd]. rewrite Hr, Hbody.
    rewrite <- app_assoc. reflexivity.
  - intros r w. split; [apply calls_call | apply (run_call h (Decode PRequest r))].
  - intros body w. split; [apply calls_call | apply (run_call h (Decode PBody body))].
  - intros r w. split; [apply calls_call | apply (run_call h (Decode PResponse r))].
  - intros body w. split; [apply calls_call | apply (run_call h (Decode PBody body))].
Qed.

End BasicProtocol.

(** On the reference engine: the bytes of a request on the basic protocol
    are the request envelope followed by the body. *)
Lemma C9_witness :
  run MiniMsgpack.conn (goRpcCodec.WriteRequest (mkRequest "A.B" 7) (Uint64 3)) [] =
    (None, [0x82; 0xad; 83; 101; 114; 118; 105; 99; 101; 77; 101; 116; 104; 111; 100;
            0xa3; 65; 46; 66; 0xa3; 83; 101; 113; 7] ++ [3]).
Proof.
  destruct (C9_basic_protocol_two_values MiniMsgpack.conn) as (_ & _ & Hreq & _).
  apply (Hreq MiniMsgpack.marshal MiniMsgpack.unmarshal (mkRequest "A.B" 7) (Uint64 3) []);
    reflexivity.
Defined.

(** * Further properties of the codecs *)

(** ** The stream core, piecewise *)

Section StreamCoreCompose.

Context {W : Type} (h : Handler W).

Lemma write_app_run (xs ys : list value) (w : W) :
  run h (rpcCodec.write (xs ++ ys)) w =
  run h (err <- rpcCodec.write xs ;;
         match err with
         | Some _ => Ret err
         | None => rpcCodec.write ys
         end) w.
Proof.
  revert w. induction xs as [| x xs IH]; intros w.
  - reflexivity.
  - rewrite run_bind. simpl app. rewrite !write_cons.
    destruct (fst (h_encode h x w)) as [e |].
    + reflexivity.
    + rewrite IH, run_bind. reflexivity.
Qed.

Lemma write_app_calls (xs ys : list value) (w : W) :
  calls h (rpcCodec.write (xs ++ ys)) w =
  calls h (err <- rpcCodec.write xs ;;
           match err with
           | Some _ => Ret err
           | None => rpcCodec.write ys
           end) w.
Proof.
  revert w. induction xs as [| x xs IH]; intros w.
  - reflexivity.
  - simpl app. rewrite calls_bind, !write_cons_calls, write_cons.
    destruct (fst (h_encode h x w)) as [e |].
    + reflexivity.
    + rewrite IH, calls_bind. reflexivity.
Qed.

Lemma read_app_run (ps1 ps2 : list ptr)
      (objs1 : rpcCodec.pointees ps1) (objs2 : rpcCodec.pointees ps2) (w : W) :
  run h (rpcCodec.read (ps1 ++ ps2) (papp ps1 ps2 objs1 objs2)) w =
  run h ('(objs1', err) <- rpcCodec.read ps1 objs1 ;;
         match err with
         | Some _ => Ret (papp ps1 ps2 objs1' objs2, err)
         | None =>
             '(objs2', err') <- rpcCodec.read ps2 objs2 ;;
             Ret (papp ps1 ps2 objs1' objs2', err')
         end) w.
Proof.
  revert objs1 w. induction ps1 as [| p ps1 IH]; intros objs1 w.
  - simpl app. simpl papp. rewrite run_bind. cbn [rpcCodec.read run fst snd].
    rewrite run_bind.
    destruct (run h (rpcCodec.read ps2 objs2) w) as [[objs2' err'] w']. reflexivity.
  - simpl app. simpl papp. rewrite run_bind, !read_cons. cbv zeta.
    cbn [fst snd].
    destruct (h_decode h p (fst objs1) w) as [[obj [e |]] w1]; cbn [fst snd].
    + reflexivity.
    + rewrite IH, run_bind.
      destruct (run h (rpcCodec.read ps1 (snd objs1)) w1) as [[objs1' [e |]] w2];
        cbn [fst snd].
      * reflexivity.
      * rewrite !run_bind.
        destruct (run h (rpcCodec.read ps2 objs2) w2) as [[objs2' err'] w3]. reflexivity.
Qed.

Lemma read_app_calls (ps1 ps2 : list ptr)
      (objs1 : rpcCodec.pointees ps1) (objs2 : rpcCodec.pointees ps2) (w : W) :
  calls h (rpcCodec.read (ps1 ++ ps2) (papp ps1 ps2 objs1 objs2)) w =
  calls h ('(objs1', err) <- rpcCodec.read ps1 objs1 ;;
           match err with
           | Some _ => Ret (papp ps1 ps2 objs1' objs2, err)
           | None =>
               '(objs2', err') <- rpcCodec.read ps2 objs2 ;;
               Ret (papp ps1 ps2 objs1' objs2', err')
           end) w.
Proof.
  revert objs1 w. induction ps1 as [| p ps1 IH]; intros objs1 w.
  - simpl app. simpl papp. rewrite calls_bind. cbn [rpcCodec.read run calls fst snd app].
    rewrite calls_bind.
    destruct (run h (rpcCodec.read ps2 objs2) w) as [[objs2' err'] w']. cbn [fst snd calls].
    rewrite app_nil_r. reflexivity.
  - simpl app. simpl papp. rewrite calls_bind, !read_cons_calls, read_cons.
    cbv zeta. cbn [fst snd].
    destruct (h_decode h p (fst objs1) w) as [[obj [e |]] w1]; cbn [fst snd].
    + reflexivity.
    + rewrite IH, calls_bind. cbn [app]. f_equal.
      destruct (run h (rpcCodec.read ps1 (snd objs1)) w1) as [[objs1' [e |]] w2];
        cbn [fst snd].
      * reflexivity.
      * f_equal. rewrite !calls_bind.
        destruct (run h (rpcCodec.read ps2 objs2) w2) as [[objs2' err'] w3]. reflexivity.
Qed.

(** X1. Writing a list of values in one [write] is writing a first part
    and then, only if that succeeded, the rest: results, final worlds and
    calls agree.  The same holds for [read] and its targets. *)
Theorem X1_write_read_piecewise :
  (forall xs ys w,
      run h (rpcCodec.write (xs ++ ys)) w =
        run h (err <- rpcCodec.write xs ;;
               match err with
               | Some _ => Ret err
               | None => rpcCodec.write ys
               end) w /\
      calls h (rpcCodec.write (xs ++ ys)) w =
        calls h (err <- rpcCodec.write xs ;;
                 match err with
                 | Some _ => Ret err
                 | None => rpcCodec.write ys
                 end) w) /\
  (forall ps1 ps2 objs1 objs2 w,
      run h (rpcCodec.read (ps1 ++ ps2) (papp ps1 ps2 objs1 objs2)) w =
        run h ('(objs1', err) <- rpcCodec.read ps1 objs1 ;;
               match err with
               | Some _ => Ret (papp ps1 ps2 objs1' objs2, err)
               | None =>
                   '(objs2', err') <- rpcCodec.read ps2 objs2 ;;
                   Ret (papp ps1 ps2 objs1' objs2', err')
               end) w /\
      calls h (rpcCodec.read (ps1 ++ ps2) (papp ps1 ps2 objs1 objs2)) w =
        calls h ('(objs1', err) <- rpcCodec.read ps1 objs1 ;;
                 match err with
                 | Some _ => Ret (papp ps1 ps2 objs1' objs2, err)
                 | None =>
                     '(objs2', err') <- rpcCodec.read ps2 objs2 ;;
                     Ret (papp ps1 ps2 objs1' objs2', err')
                 end) w).
Proof.
  split.
  - intros xs ys w. split; [apply write_app_run | apply write_app_calls].
  - intros ps1 ps2 objs1 objs2 w. split; [apply read_app_run | apply read_app_calls].
Qed.

End StreamCoreCompose.

(** ** A decode failure inside the header *)

Section HeaderDecodeFailure.

Context {W : Type} (h : Handler W).

(** X2. Once the descriptor byte is accepted, the first of the three
    decodes that fails ends the header read with the Decoder's own error: no
    later decode is made, the discriminator is never compared, the pointees
    decoded before hold the decoded values, the failing one holds what the
    Decoder left there, and the ones after are untouched. *)
Theorem X2_header_decode_failure
        (d msgid : Z) (moe : string) (w w1 : W) :
  h_read1 h w = ((1, 0x94, None), w1) ->
  (forall b' e w2,
      h_decode h PByte 0 w1 = ((b', Some e), w2) ->
      run h (specRpcCodec.parseCustomHeader d msgid moe) w = ((msgid, moe, Some e), w2) /\
      calls h (specRpcCodec.parseCustomHeader d msgid moe) w = [CRead1; CDecode PByte]) /\
  (forall b m' e w2 w3,
      h_decode h PByte 0 w1 = ((b, None), w2) ->
      h_decode h PUint64 msgid w2 = ((m', Some e), w3) ->
      run h (specRpcCodec.parseCustomHeader d msgid moe) w = ((m', moe, Some e), w3) /\
      calls h (specRpcCodec.parseCustomHeader d msgid moe) w =
        [CRead1; CDecode PByte; CDecode PUint64]) /\
  (forall b m s' e w2 w3 w4,
      h_decode h PByte 0 w1 = ((b, None), w2) ->
      h_decode h PUint64 msgid w2 = ((m, None), w3) ->
      h_decode h PString moe w3 = ((s', Some e), w4) ->
      run h (specRpcCodec.parseCustomHeader d msgid moe) w = ((m, s', Some e), w4) /\
      calls h (specRpcCodec.parseCustomHeader d msgid moe) w =
        [CRead1; CDecode PByte; CDecode PUint64; CDecode PString]).
Proof.
  intros Hread.
  unfold specRpcCodec.parseCustomHeader.
  rewrite run_bind, calls_bind, calls_call, run_call. cbn [handle]. rewrite Hread.
  conjuncts.
  - intros b' e w2 Hb. simpl. rewrite Hb. simpl. split; reflexivity.
  - intros b m' e w2 w3 Hb Hm. simpl. rewrite Hb. simpl. rewrite Hm. simpl.
    split; reflexivity.
  - intros b m s' e w2 w3 w4 Hb Hm Hs. simpl. rewrite Hb. simpl. rewrite Hm. simpl.
    rewrite Hs. simpl. split; reflexivity.
Qed.

End HeaderDecodeFailure.

(** On the reference engine: a response discriminator followed by a string
    where the sequence number should be, read as a request header.  The
    error is the Decoder's, not the discriminator's. *)
Lemma X2_witness :
  run MiniMsgpack.conn (specRpcCodec.parseCustomHeader 0 55 "old") [0x94; 1; 0xa1; 0x61] =
    ((55, "old"%string, Some (ErrCodec "malformed input")), [0xa1; 0x61]) /\
  calls MiniMsgpack.conn (specRpcCodec.parseCustomHeader 0 55 "old") [0x94; 1; 0xa1; 0x61] =
    [CRead1; CDecode PByte; CDecode PUint64].
Proof.
  destruct (@X2_header_decode_failure _ MiniMsgpack.conn 0 55 "old"
              [0x94; 1; 0xa1; 0x61] [1; 0xa1; 0x61] eq_refl)
    as (_ & Hseq & _).
  apply (Hseq 1 55 (ErrCodec "malformed input") [0xa1; 0x61] [0xa1; 0x61]); reflexivity.
Defined.

(** ** Messages over the byte pipe *)

Section PipeMessages.

Variable marshal : value -> list Z * option error.
Variable unmarshal : forall p : ptr, pointee p -> list Z -> pointee p * list Z * option error.

Lemma pipe_writeCustomBody_from (d n : Z) (m : string) (body : value) (moe slot : value)
      (w : list Z) :
  specRpcCodec.r2 d n m body = Slice [Byte d; Uint32 (uint32 n); moe; slot] ->
  fixarray4 marshal (Byte d) (Uint32 (uint32 n)) moe slot ->
  run (pipe marshal unmarshal) (specRpcCodec.writeCustomBody d n m body) w =
    (None, w ++ wire marshal (Slice [Byte d; Uint32 (uint32 n); moe; slot])).
Proof.
  intros Henv Harr. unfold specRpcCodec.writeCustomBody.
  rewrite run_call. cbn [handle]. rewrite pipe_encode, Henv, Harr. reflexivity.
Qed.

Lemma pipe_WriteRequest (r : Request) (body : value) (w : list Z) :
  carries_request marshal unmarshal r body ->
  run (pipe marshal unmarshal) (specRpcCodec.WriteRequest r body) w =
    (None, w ++ wire marshal (spec_request r body)).
Proof.
  intros (Harr & _). unfold specRpcCodec.WriteRequest.
  apply (@pipe_writeCustomBody_from 0 (req_Seq r) (req_ServiceMethod r) (Slice [body])
           _ _ w eq_refl Harr).
Qed.

Lemma pipe_ReadRequestHeader (r : Request) (body : value) (q : Request) (rest : list Z) :
  carries_request marshal unmarshal r body ->
  run (pipe marshal unmarshal) (specRpcCodec.ReadRequestHeader q)
      (wire marshal (spec_request r body) ++ rest) =
    ((mkRequest (req_ServiceMethod r) (uint32 (req_Seq r)), None),
     wire marshal (Slice [body]) ++ rest).
Proof.
  intros (Harr & Hd & Hn & Hm & _). unfold specRpcCodec.ReadRequestHeader.
  rewrite run_bind.
  destruct (pipe_header (req_Seq q) (req_ServiceMethod q) rest Harr Hd Hn Hm) as [Hrun _].
  unfold spec_request. fold (uint32 (req_Seq r)). rewrite Hrun. reflexivity.
Qed.

Lemma pipe_ReadRequestBody (r : Request) (body cur : value) (rest : list Z) :
  carries_request marshal unmarshal r body ->
  run (pipe marshal unmarshal) (specRpcCodec.ReadRequestBody cur)
      (wire marshal (Slice [body]) ++ rest) = ((body, None), rest).
Proof.
  intros (_ & _ & _ & _ & Hbody). unfold specRpcCodec.ReadRequestBody.
  rewrite run_call. cbn [handle]. apply (@pipe_decode _ _ PBodyArr _ _ cur rest Hbody).
Qed.

Lemma pipe_WriteResponse (r : Response) (body : value) (w : list Z) :
  carries_response marshal unmarshal r body ->
  run (pipe marshal unmarshal) (specRpcCodec.WriteResponse r body) w =
    (None, w ++ wire marshal (spec_response r body)).
Proof.
  intros (Harr & _). unfold specRpcCodec.WriteResponse.
  apply (@pipe_writeCustomBody_from 1 (resp_Seq r) (resp_Error r) body
           _ _ w (r2_response r body) Harr).
Qed.

Lemma pipe_ReadResponseHeader (r : Response) (body : value) (q : Response) (rest : list Z) :
  carries_response marshal unmarshal r body ->
  run (pipe marshal unmarshal) (specRpcCodec.ReadResponseHeader q)
      (wire marshal (spec_response r body) ++ rest) =
    ((mkResponse (resp_ServiceMethod q) (uint32 (resp_Seq r)) (resp_Error r), None),
     wire marshal (spec_body r body) ++ rest).
Proof.
  intros (Harr & Hd & Hn & He & _). unfold specRpcCodec.ReadResponseHeader.
  rewrite run_bind.
  destruct (pipe_header (resp_Seq q) (resp_Error q) rest Harr Hd Hn He) as [Hrun _].
  unfold spec_response. fold (uint32 (resp_Seq r)). rewrite Hrun. reflexivity.
Qed.

Lemma spec_body_value (r : Response) (body : value) :
  spec_body r body =
  match resp_Error r with
  | EmptyString => body
  | _ => Nil
  end.
Proof.
  unfold spec_body, spec_moe. destruct (resp_Error r); [reflexivity |].
  destruct body; reflexivity.
Qed.

(** X3. A response written and read back over one stream: the three calls
    succeed and leave the stream empty; the sequence number comes back as
    [uint32(Seq)] and the error message as written; the service method is
    not carried, the reader's own stays; the body read is the body given
    when the message is empty and nil otherwise, whatever body was given. *)
Theorem X3_response_round_trip (r : Response) (body : value) (r0 : Response) (body0 : value) :
  carries_response marshal unmarshal r body ->
  run (pipe marshal unmarshal)
      (werr <- specRpcCodec.WriteResponse r body ;;
       '(r', herr) <- specRpcCodec.ReadResponseHeader r0 ;;
       '(body', berr) <- specRpcCodec.ReadResponseBody body0 ;;
       Ret (werr, herr, berr, r', body')) [] =
    ((None, None, None,
      mkResponse (resp_ServiceMethod r0) (uint32 (resp_Seq r)) (resp_Error r),
      match resp_Error r with
      | EmptyString => body
      | _ => Nil
      end), []).
Proof.
  intros Hc. pose proof Hc as (_ & _ & _ & _ & Hbody).
  rewrite run_bind, (pipe_WriteResponse [] Hc). cbn [fst snd app].
  rewrite run_bind.
  rewrite <- (app_nil_r (wire marshal (spec_response r body))).
  rewrite (pipe_ReadResponseHeader r0 [] Hc). cbn [fst snd].
  rewrite run_bind. unfold specRpcCodec.ReadResponseBody, rpcCodec.ReadResponseBody.
  rewrite run_call. cbn [handle].
  rewrite (@pipe_decode _ _ PBody _ _ body0 [] Hbody). cbn [fst snd run].
  rewrite spec_body_value. reflexivity.
Qed.

(** X4. Two requests written one after the other on one stream are read
    back in the order written, each header followed by its body, and the
    stream is left empty: a message ends exactly where the next begins. *)
Theorem X4_requests_back_to_back
        (r1 : Request) (b1 : value) (r2 : Request) (b2 : value)
        (q1 q2 : Request) (t1 t2 : value) :
  carries_request marshal unmarshal r1 b1 ->
  carries_request marshal unmarshal r2 b2 ->
  run (pipe marshal unmarshal)
      (e1 <- specRpcCodec.WriteRequest r1 b1 ;;
       e2 <- specRpcCodec.WriteRequest r2 b2 ;;
       '(h1, e3) <- specRpcCodec.ReadRequestHeader q1 ;;
       '(c1, e4) <- specRpcCodec.ReadRequestBody t1 ;;
       '(h2, e5) <- specRpcCodec.ReadRequestHeader q2 ;;
       '(c2, e6) <- specRpcCodec.ReadRequestBody t2 ;;
       Ret ([e1; e2; e3; e4; e5; e6], (h1, c1), (h2, c2))) [] =
    (([None; None; None; None; None; None],
      (mkRequest (req_ServiceMethod r1) (uint32 (req_Seq r1)), b1),
      (mkRequest (req_ServiceMethod r2) (uint32 (req_Seq r2)), b2)), []).
Proof.
  intros H1 H2.
  rewrite run_bind, (pipe_WriteRequest [] H1). cbn [fst snd app].
  rewrite run_bind, (pipe_WriteRequest _ H2). cbn [fst snd].
  rewrite run_bind, (pipe_ReadRequestHeader q1 _ H1). cbn [fst snd].
  rewrite run_bind, (pipe_ReadRequestBody t1 _ H1). cbn [fst snd].
  rewrite run_bind.
  rewrite <- (app_nil_r (wire marshal (spec_request r2 b2))).
  rewrite (pipe_ReadRequestHeader q2 [] H2). cbn [fst snd].
  rewrite run_bind, (pipe_ReadRequestBody t2 [] H2). reflexivity.
Qed.

End PipeMessages.

(** On the reference engine: the reply to a failed call, written with a
    body and under a service method, read into a response that carries
    another service method. *)
Lemma X3_witness :
  run MiniMsgpack.conn
      (werr <- specRpcCodec.WriteResponse
                 (mkResponse "Arith.Div" (2 ^ 32 + 9) "division by zero") (Uint64 0) ;;
       '(r', herr) <- specRpcCodec.ReadResponseHeader (mkResponse "pending" 0 "") ;;
       '(body', berr) <- specRpcCodec.ReadResponseBody (Uint64 5) ;;
       Ret (werr, herr, berr, r', body')) [] =
    ((None, None, None, mkResponse "pending" 9 "division by zero", Nil), []).
Proof.
  apply (@X3_response_round_trip MiniMsgpack.marshal MiniMsgpack.unmarshal
           (mkResponse "Arith.Div" (2 ^ 32 + 9) "division by zero") (Uint64 0)
           (mkResponse "pending" 0 "") (Uint64 5)).
  carried.
Defined.

(** On the reference engine: two calls in flight. *)
Lemma X4_witness :
  run MiniMsgpack.conn
      (e1 <- specRpcCodec.WriteRequest (mkRequest "Arith.Add" 7) (Slice [Uint64 1; Uint64 2]) ;;
       e2 <- specRpcCodec.WriteRequest (mkRequest "Arith.Neg" 8) (Uint64 3) ;;
       '(h1, e3) <- specRpcCodec.ReadRequestHeader (mkRequest "" 0) ;;
       '(c1, e4) <- specRpcCodec.ReadRequestBody Nil ;;
       '(h2, e5) <- specRpcCodec.ReadRequestHeader (mkRequest "" 0) ;;
       '(c2, e6) <- specRpcCodec.ReadRequestBody Nil ;;
       Ret ([e1; e2; e3; e4; e5; e6], (h1, c1), (h2, c2))) [] =
    (([None; None; None; None; None; None],
      (mkRequest "Arith.Add" 7, Slice [Uint64 1; Uint64 2]),
      (mkRequest "Arith.Neg" 8, Uint64 3)), []).
Proof.
  apply (@X4_requests_back_to_back MiniMsgpack.marshal MiniMsgpack.unmarshal
           (mkRequest "Arith.Add" 7) (Slice [Uint64 1; Uint64 2])
           (mkRequest "Arith.Neg" 8) (Uint64 3) (mkRequest "" 0) (mkRequest "" 0) Nil Nil).
  - carried.
  - carried.
Defined.

Section PipeMessagesMore.

Variable marshal : value -> list Z * option error.
Variable unmarshal : forall p : ptr, pointee p -> list Z -> pointee p * list Z * option error.

(** X5. Over one stream the basic protocol gives back the envelope as it
    was written, with the whole 64-bit sequence number, and the body, for a
    request as for a response, when the Decoder inverts the Encoder on the
    envelope and on the body; the stream is left empty. *)
Theorem X5_basic_round_trip :
  (forall (r : Request) (body : value) (r0 : Request) (body0 : value),
      inverts marshal unmarshal PRequest (RequestPtr r) r ->
      inverts marshal unmarshal PBody body body ->
      run (pipe marshal unmarshal)
          (werr <- goRpcCodec.WriteRequest r body ;;
           '(r', herr) <- goRpcCodec.ReadRequestHeader r0 ;;
           '(body', berr) <- goRpcCodec.ReadRequestBody body0 ;;
           Ret (werr, herr, berr, r', body')) [] =
        ((None, None, None, r, body), [])) /\
  (forall (r : Response) (body : value) (r0 : Response) (body0 : value),
      inverts marshal unmarshal PResponse (ResponsePtr r) r ->
      inverts marshal unmarshal PBody body body ->
      run (pipe marshal unmarshal)
          (werr <- goRpcCodec.WriteResponse r body ;;
           '(r', herr) <- goRpcCodec.ReadResponseHeader r0 ;;
           '(body', berr) <- goRpcCodec.ReadResponseBody body0 ;;
           Ret (werr, herr, berr, r', body')) [] =
        ((None, None, None, r, body), [])).
Proof.
  split.
  - intros r body r0 body0 Hr Hbody.
    rewrite run_bind. unfold goRpcCodec.WriteRequest.
    rewrite !write_cons, !pipe_encode. cbn [fst snd].
    rewrite (proj1 Hr), (proj1 Hbody). cbn [fst snd app run rpcCodec.write].
    rewrite run_bind. unfold goRpcCodec.ReadRequestHeader. rewrite run_call. cbn [handle].
    rewrite (@pipe_decode _ _ PRequest _ _ r0 _ Hr). cbn [fst snd].
    rewrite run_bind. unfold goRpcCodec.ReadRequestBody. rewrite run_call. cbn [handle].
    rewrite <- (app_nil_r (wire marshal body)).
    rewrite (@pipe_decode _ _ PBody _ _ body0 [] Hbody). reflexivity.
  - intros r body r0 body0 Hr Hbody.
    rewrite run_bind. unfold goRpcCodec.WriteResponse.
    rewrite !write_cons, !pipe_encode. cbn [fst snd].
    rewrite (proj1 Hr), (proj1 Hbody). cbn [fst snd app run rpcCodec.write].
    rewrite run_bind. unfold goRpcCodec.ReadResponseHeader. rewrite run_call. cbn [handle].
    rewrite (@pipe_decode _ _ PResponse _ _ r0 _ Hr). cbn [fst snd].
    rewrite run_bind.
    unfold goRpcCodec.ReadResponseBody, rpcCodec.ReadResponseBody.
    rewrite run_call. cbn [handle].
    rewrite <- (app_nil_r (wire marshal body)).
    rewrite (@pipe_decode _ _ PBody _ _ body0 [] Hbody). reflexivity.
Qed.

End PipeMessagesMore.

(** On the reference engine: the sequence number [2^32 + 7] survives the
    basic protocol. *)
Lemma X5_witness :
  run MiniMsgpack.conn
      (werr <- goRpcCodec.WriteRequest (mkRequest "Arith.Add" (2 ^ 32 + 7))
                 (Slice [Uint64 1; Uint64 2]) ;;
       '(r', herr) <- goRpcCodec.ReadRequestHeader (mkRequest "" 0) ;;
       '(body', berr) <- goRpcCodec.ReadRequestBody Nil ;;
       Ret (werr, herr, berr, r', body')) [] =
    ((None, None, None, mkRequest "Arith.Add" (2 ^ 32 + 7), Slice [Uint64 1; Uint64 2]), []) /\
  run MiniMsgpack.conn
      (werr <- goRpcCodec.WriteResponse (mkResponse "Arith.Div" (2 ^ 32 + 7) "division by zero")
                 (Uint64 0) ;;
       '(r', herr) <- goRpcCodec.ReadResponseHeader (mkResponse "" 0 "") ;;
       '(body', berr) <- goRpcCodec.ReadResponseBody Nil ;;
       Ret (werr, herr, berr, r', body')) [] =
    ((None, None, None, mkResponse "Arith.Div" (2 ^ 32 + 7) "division by zero", Uint64 0), []).
Proof.
  destruct (X5_basic_round_trip MiniMsgpack.marshal MiniMsgpack.unmarshal) as [Hreq Hresp].
  split.
  - apply Hreq; (split; [reflexivity | intros cur rest; reflexivity]).
  - apply Hresp; (split; [reflexivity | intros cur rest; reflexivity]).
Defined.

(** ** What distinguishes two messages of the Spec protocol *)

Section EnvelopeEquality.

Context {W : Type} (h : Handler W).

Lemma spec_moe_inj (r1 r2 : Response) :
  spec_moe r1 = spec_moe r2 -> resp_Error r1 = resp_Error r2.
Proof.
  unfold spec_moe. destruct (resp_Error r1); destruct (resp_Error r2);
    intros Heq; try discriminate; [reflexivity | injection Heq as -> ->; reflexivity].
Qed.

(** X6. Two requests are handed to the Encoder as the same value exactly
    when they have the same method, the same body and sequence numbers that
    agree modulo [2^32].  Two responses are, exactly when their sequence
    numbers agree modulo [2^32], their error messages are equal and, if that
    message is empty, their bodies are equal: with an error message the body
    makes no difference, and the service method never does. *)
Theorem X6_same_message_on_the_wire (w : W) :
  (forall r1 b1 r2 b2,
      calls h (specRpcCodec.WriteRequest r1 b1) w =
      calls h (specRpcCodec.WriteRequest r2 b2) w <->
      req_ServiceMethod r1 = req_ServiceMethod r2 /\
      req_Seq r1 mod 2 ^ 32 = req_Seq r2 mod 2 ^ 32 /\
      b1 = b2) /\
  (forall r1 b1 r2 b2,
      calls h (specRpcCodec.WriteResponse r1 b1) w =
      calls h (specRpcCodec.WriteResponse r2 b2) w <->
      resp_Seq r1 mod 2 ^ 32 = resp_Seq r2 mod 2 ^ 32 /\
      resp_Error r1 = resp_Error r2 /\
      (resp_Error r1 = EmptyString -> b1 = b2)).
Proof.
  split.
  - intros r1 b1 r2 b2.
    unfold specRpcCodec.WriteRequest, specRpcCodec.writeCustomBody.
    rewrite !calls_call, !r2_request. simpl callee_of. unfold spec_request. split.
    + intros Heq. injection Heq as Hseq Hm Hb. auto.
    + intros (-> & -> & ->). reflexivity.
  - intros r1 b1 r2 b2.
    unfold specRpcCodec.WriteResponse, specRpcCodec.writeCustomBody.
    rewrite !calls_call, !r2_response. simpl callee_of. unfold spec_response. split.
    + intros Heq. injection Heq as Hseq Hmoe Hbody.
      apply spec_moe_inj in Hmoe. conjuncts; [exact Hseq | exact Hmoe |].
      intros Hempty. rewrite !spec_body_value, <- Hmoe, Hempty in Hbody. exact Hbody.
    + intros (Hseq & Herr & Hbody). rewrite Hseq.
      unfold spec_moe. rewrite !spec_body_value, <- Herr.
      destruct (resp_Error r1); [rewrite Hbody by reflexivity |]; reflexivity.
Qed.

End EnvelopeEquality.

(** On the reference engine: sequence numbers [7] and [2^32 + 7] make the
    same request; replies to a failed call with different bodies and service
    methods are the same reply. *)
Lemma X6_witness :
  calls MiniMsgpack.conn (specRpcCodec.WriteRequest (mkRequest "Arith.Add" 7) (Uint64 1)) [] =
  calls MiniMsgpack.conn
        (specRpcCodec.WriteRequest (mkRequest "Arith.Add" (2 ^ 32 + 7)) (Uint64 1)) [] /\
  calls MiniMsgpack.conn
        (specRpcCodec.WriteResponse (mkResponse "Arith.Div" 9 "division by zero") (Uint64 0)) [] =
  calls MiniMsgpack.conn
        (specRpcCodec.WriteResponse (mkResponse "" 9 "division by zero") Nil) [].
Proof.
  destruct (X6_same_message_on_the_wire MiniMsgpack.conn []) as [Hreq Hresp].
  split.
  - apply Hreq. conjuncts; reflexivity.
  - apply Hresp. conjuncts; [reflexivity | reflexivity | discriminate].
Defined.

(** ** A body left on the stream *)

Section UnreadBody.

Variable marshal : value -> list Z * option error.
Variable unmarshal : forall p : ptr, pointee p -> list Z -> pointee p * list Z * option error.

(** X7. A request header read does not skip a body left unread: when the
    body of a request is not read, the next header read takes the first byte
    of that body for the array descriptor and, the byte not being [0x94],
    fails with "unexpected array descriptor", the caller's request left as it
    was and that byte gone from the stream. *)
Theorem X7_unread_body_fails_next_header
        (r : Request) (body : value) (q1 q2 : Request) (b0 : Z) (tl : list Z) :
  carries_request marshal unmarshal r body ->
  wire marshal (Slice [body]) = b0 :: tl ->
  b0 <> 0x94 ->
  run (pipe marshal unmarshal)
      (_ <- specRpcCodec.WriteRequest r body ;;
       '(h1, e1) <- specRpcCodec.ReadRequestHeader q1 ;;
       '(h2, e2) <- specRpcCodec.ReadRequestHeader q2 ;;
       Ret (h1, e1, h2, e2)) [] =
    ((mkRequest (req_ServiceMethod r) (uint32 (req_Seq r)), None,
      q2, Some (ErrArrayDescriptor 0x94 b0)), tl).
Proof.
  intros Hc Hwire Hb0.
  rewrite run_bind, (pipe_WriteRequest [] Hc). cbn [fst snd app].
  rewrite run_bind.
  rewrite <- (app_nil_r (wire marshal (spec_request r body))).
  rewrite (pipe_ReadRequestHeader q1 [] Hc). cbn [fst snd].
  rewrite app_nil_r, Hwire, run_bind.
  unfold specRpcCodec.ReadRequestHeader. rewrite run_bind.
  destruct (@parseCustomHeader_refused _ (pipe marshal unmarshal) 0
              (req_Seq q2) (req_ServiceMethod q2) (b0 :: tl) tl 1 b0 None eq_refl)
    as (e & Hrun & _ & _ & _ & He).
  { right. right. exact Hb0. }
  rewrite Hrun, (He eq_refl eq_refl). destruct q2 as [m seq]. reflexivity.
Qed.

End UnreadBody.

(** On the reference engine, where the body slot of a request starts with
    the descriptor [0x91] of a one-item array. *)
Lemma X7_witness :
  run MiniMsgpack.conn
      (_ <- specRpcCodec.WriteRequest (mkRequest "Arith.Add" 7) (Slice [Uint64 1; Uint64 2]) ;;
       '(h1, e1) <- specRpcCodec.ReadRequestHeader (mkRequest "" 0) ;;
       '(h2, e2) <- specRpcCodec.ReadRequestHeader (mkRequest "next" 55) ;;
       Ret (h1, e1, h2, e2)) [] =
    ((mkRequest "Arith.Add" 7, None,
      mkRequest "next" 55, Some (ErrArrayDescriptor 0x94 0x91)), [0x92; 1; 2]).
Proof.
  apply (@X7_unread_body_fails_next_header MiniMsgpack.marshal MiniMsgpack.unmarshal
           (mkRequest "Arith.Add" 7) (Slice [Uint64 1; Uint64 2])
           (mkRequest "" 0) (mkRequest "next" 55) 0x91 [0x92; 1; 2]).
  - carried.
  - reflexivity.
  - lia.
Defined.

(** ** Where the Spec protocol gives the sequence number back unchanged *)

Section ExactRoundTrip.

Variable marshal : value -> list Z * option error.
Variable unmarshal : forall p : ptr, pointee p -> list Z -> pointee p * list Z * option error.

Lemma uint32_exact (s : Z) : is_uint64 s -> (uint32 s = s <-> s < 2 ^ 32).
Proof.
  intros [Hlo _]. split.
  - intros Heq. pose proof (uint32_range s) as Hr. lia.
  - intros Hhi. unfold uint32. apply Z.mod_small. lia.
Qed.

(** X8. The request header read back over one stream is the request that
    was written exactly when its sequence number is below [2^32]. *)
Theorem X8_request_header_exact_below_2_32 (r : Request) (body : value) (r0 : Request) :
  carries_request marshal unmarshal r body ->
  is_uint64 (req_Seq r) ->
  (fst (run (pipe marshal unmarshal)
            (_ <- specRpcCodec.WriteRequest r body ;; specRpcCodec.ReadRequestHeader r0) []) =
     (r, None)
   <-> req_Seq r < 2 ^ 32).
Proof.
  intros Hc Hs.
  rewrite run_bind, (pipe_WriteRequest [] Hc). cbn [fst snd app].
  rewrite <- (app_nil_r (wire marshal (spec_request r body))).
  rewrite (pipe_ReadRequestHeader r0 [] Hc). cbn [fst].
  rewrite <- (uint32_exact Hs). destruct r as [m s]. cbn [req_Seq req_ServiceMethod].
  split.
  - intros Heq. injection Heq as Heq. exact Heq.
  - intros ->. reflexivity.
Qed.

End ExactRoundTrip.

(** On the reference engine: sequence number [2^32 - 1] comes back as it
    is. *)
Lemma X8_witness :
  fst (run MiniMsgpack.conn
           (_ <- specRpcCodec.WriteRequest (mkRequest "Arith.Add" (2 ^ 32 - 1)) Nil ;;
            specRpcCodec.ReadRequestHeader (mkRequest "" 0)) []) =
    (mkRequest "Arith.Add" (2 ^ 32 - 1), None).
Proof.
  apply (@X8_request_header_exact_below_2_32 MiniMsgpack.marshal MiniMsgpack.unmarshal
           (mkRequest "Arith.Add" (2 ^ 32 - 1)) Nil (mkRequest "" 0)).
  - carried.
  - unfold is_uint64. simpl. lia.
  - simpl. lia.
Defined.

(** ** Every run of a header read *)

Section HeaderCalls.

Context {W : Type} (h : Handler W).

Lemma parseCustomHeader_calls_prefix (d msgid : Z) (moe : string) (w : W) :
  exists k : nat,
    (1 <= k <= 4)%nat /\
    calls h (specRpcCodec.parseCustomHeader d msgid moe) w =
      firstn k [CRead1; CDecode PByte; CDecode PUint64; CDecode PString].
Proof.
  unfold specRpcCodec.parseCustomHeader. rewrite calls_bind, calls_call, run_call.
  cbn [handle]. destruct (h_read1 h w) as [[[n b0] err] w1]. cbn [fst snd callee_of app].
  destruct err as [e |]; [exists 1%nat; split; [lia | reflexivity] |].
  destruct (n =? 1); cbn [negb]; [| exists 1%nat; split; [lia | reflexivity]].
  destruct (b0 =? specRpcCodec.fia); cbn [negb]; [| exists 1%nat; split; [lia | reflexivity]].
  rewrite calls_bind, read_cons, read_cons_calls. cbv zeta. cbn [fst snd].
  destruct (h_decode h PByte 0 w1) as [[b [e |]] w2]; cbn [fst snd app calls].
  { exists 2%nat. split; [lia | reflexivity]. }
  rewrite read_cons, read_cons_calls. cbv zeta. cbn [fst snd].
  destruct (h_decode h PUint64 msgid w2) as [[m [e |]] w3]; cbn [fst snd app calls].
  { exists 3%nat. split; [lia | reflexivity]. }
  rewrite read_cons, read_cons_calls. cbv zeta. cbn [fst snd].
  destruct (h_decode h PString moe w3) as [[s [e |]] w4];
    cbn [fst snd app calls rpcCodec.read run].
  { exists 4%nat. split; [lia | reflexivity]. }
  exists 4%nat. split; [lia |]. destruct (b =? d); reflexivity.
Qed.

(** X9. Whatever the connection and the Decoder answer, a header read of
    the Spec protocol makes between one and four calls, and they are an
    initial part of: the raw one-byte read, a decode into a byte, a decode
    into a 64-bit unsigned integer, a decode into a string.  It never
    encodes, never closes the connection, and never reads a fifth value: the
    body stays on the stream. *)
Theorem X9_header_read_calls :
  (forall r w, exists k : nat,
      (1 <= k <= 4)%nat /\
      calls h (specRpcCodec.ReadRequestHeader r) w =
        firstn k [CRead1; CDecode PByte; CDecode PUint64; CDecode PString]) /\
  (forall r w, exists k : nat,
      (1 <= k <= 4)%nat /\
      calls h (specRpcCodec.ReadResponseHeader r) w =
        firstn k [CRead1; CDecode PByte; CDecode PUint64; CDecode PString]).
Proof.
  split.
  - intros r w.
    destruct (parseCustomHeader_calls_prefix 0 (req_Seq r) (req_ServiceMethod r) w)
      as (k & Hk & Hcalls).
    exists k. split; [exact Hk |].
    unfold specRpcCodec.ReadRequestHeader. rewrite calls_bind, Hcalls.
    destruct (run h _ w) as [[[seq m] err] w']. cbn [fst snd calls]. apply app_nil_r.
  - intros r w.
    destruct (parseCustomHeader_calls_prefix 1 (resp_Seq r) (resp_Error r) w)
      as (k & Hk & Hcalls).
    exists k. split; [exact Hk |].
    unfold specRpcCodec.ReadResponseHeader. rewrite calls_bind, Hcalls.
    destruct (run h _ w) as [[[seq m] err] w']. cbn [fst snd calls]. apply app_nil_r.
Qed.

End HeaderCalls.

(** ** The logging helper *)

Lemma length_snoc (s : string) (c : ascii) :
  String.length (s ++ String c EmptyString) = S (String.length s).
Proof. induction s as [| a s IH]; simpl; [reflexivity | rewrite IH; reflexivity]. Qed.

Lemma get_snoc (s : string) (c : ascii) :
  String.get (String.length s) (s ++ String c EmptyString) = Some c.
Proof. induction s as [| a s IH]; simpl; [reflexivity | exact IH]. Qed.

Lemma lacks_newline_snoc (s : string) :
  helper.lacks_newline (s ++ String helper.newline EmptyString) = false.
Proof.
  unfold helper.lacks_newline. rewrite length_snoc. simpl Nat.eqb. simpl Nat.sub.
  rewrite Nat.sub_0_r, get_snoc. reflexivity.
Qed.

Lemma lacks_newline_false (s : string) :
  helper.lacks_newline s = false ->
  String.get (String.length s - 1) s = Some helper.newline.
Proof.
  unfold helper.lacks_newline. intros H. apply orb_false_elim in H as [_ H].
  destruct (String.get (String.length s - 1) s) as [c |]; [| discriminate].
  apply negb_false_iff, Ascii.eqb_eq in H. rewrite H. reflexivity.
Qed.

(** X10. [log] calls [fmt.Printf] exactly when [showLog] or [debugging]
    is set, with the arguments as given and with a format that ends in a
    newline: the format given if it already ends in one, and otherwise the
    format given followed by one newline.  A format that [log] has passed on
    is passed on unchanged when logged again. *)
Theorem X10_log_format_ends_in_newline
        (showLog debugging : bool) (format : string) (args : list value) :
  (helper.log showLog debugging format args = None <->
   showLog = false /\ debugging = false) /\
  (forall format' args',
      helper.log showLog debugging format args = Some (format', args') ->
      args' = args /\
      String.get (String.length format' - 1) format' = Some helper.newline /\
      (helper.lacks_newline format = false -> format' = format) /\
      (helper.lacks_newline format = true ->
       format' = (format ++ String helper.newline EmptyString)%string) /\
      helper.log showLog debugging format' args = Some (format', args)).
Proof.
  unfold helper.log. split.
  - destruct showLog, debugging; simpl; split;
      try discriminate; try (intros [? ?]; discriminate); auto.
  - intros format' args'. destruct (showLog || debugging); [| discriminate].
    destruct (helper.lacks_newline format) eqn:Hlacks; intros [= <- <-].
    + conjuncts; try reflexivity.
      * apply lacks_newline_false, lacks_newline_snoc.
      * discriminate.
      * rewrite lacks_newline_snoc. reflexivity.
    + conjuncts; try reflexivity.
      * apply lacks_newline_false, Hlacks.
      * discriminate.
      * rewrite Hlacks. reflexivity.
Qed.

(** A format without a final newline, with [showLog] set, and with both
    variables unset. *)
Lemma X10_witness :
  (String.get 6 (String.append "seq %v" (String helper.newline EmptyString)) =
     Some helper.newline /\
   helper.log true false (String.append "seq %v" (String helper.newline EmptyString))
              [Uint64 7] =
     Some (String.append "seq %v" (String helper.newline EmptyString), [Uint64 7])) /\
  helper.log false false "seq %v" [Uint64 7] = None.
Proof.
  destruct (X10_log_format_ends_in_newline true false "seq %v" [Uint64 7])
    as [_ Hcall].
  destruct (X10_log_format_ends_in_newline false false "seq %v" [Uint64 7])
    as [Hquiet _].
  split.
  - destruct (Hcall (String.append "seq %v" (String helper.newline EmptyString)) [Uint64 7]
                    eq_refl)
      as (_ & Hlast & _ & _ & Hagain).
    split; [exact Hlast | exact Hagain].
  - apply Hquiet. split; reflexivity.
Defined.
